(** * Signal-Desktop: reaction reconciliation, lightbox selector, groups panel

  A shallow embedding of three TypeScript sources:

  - [ts/state/selectors/lightbox.ts]           (module [Lightbox])
  - [ts/components/conversation/conversation-details/ConversationDetailsGroups.tsx]
                                               (module [GroupsPanel])
  - [ts/messageModifiers/Reactions.ts]         (module [Reactions])

  JavaScript numbers that hold indices, lengths and timestamps are modelled
  as [Z]; [undefined] is [None]; strict equality [===] on strings and on
  optional strings is decidable equality. *)

From Stdlib Require Import ZArith List String Bool Lia Permutation.
Import ListNotations.
Open Scope string_scope.
Open Scope Z_scope.
Open Scope list_scope.

(** Strict equality [a === b] where either side may be [undefined]. *)
Definition optstr_eqb (a b : option string) : bool :=
match a, b with
| Some x, Some y => String.eqb x y
| None, None => true
| _, _ => false
end.

Lemma optstr_eqb_eq a b : optstr_eqb a b = true <-> a = b.
Proof.
destruct a as [x|], b as [y|]; simpl; try (split; congruence).
rewrite String.eqb_eq. split; congruence.
Qed.

(* ================================================================= *)
(** ** ts/state/selectors/lightbox.ts *)

Module Lightbox.

Record AttachmentType := { path : option string }.

Record MediaItemType := { attachment : AttachmentType; index : Z }.

(** [LightboxStateType] is a union discriminated by [isShowingLightbox]. *)
Inductive LightboxStateType :=
| NotShowing
| Showing (isViewOnce : bool) (media : list MediaItemType)
          (selectedAttachmentPath : option string).

(** The part of the Redux [StateType] these selectors read. *)
Record StateType := { lightbox : LightboxStateType }.

Definition isShowingLightbox (state : LightboxStateType) : bool :=
  match state with NotShowing => false | Showing _ _ _ => true end.

(** [createSelector(dependency, resultFunc)] of reselect; its memoisation
    does not change what is returned. *)
Definition createSelector {S A B} (dependency : S -> A) (resultFunc : A -> B)
  : S -> B :=
  fun state => resultFunc (dependency state).

Definition getLightboxState (state : StateType) : LightboxStateType :=
  lightbox state.

(** [Array.prototype.findIndex]: position of the first element that
    satisfies [p], or [-1]. *)
Fixpoint findIndex_from {A} (p : A -> bool) (l : list A) (i : Z) : Z :=
  match l with
  | [] => -1
  | x :: rest => if p x then i else findIndex_from p rest (i + 1)
  end.

Definition findIndex {A} (p : A -> bool) (l : list A) : Z :=
  findIndex_from p l 0.

(** [item => item.attachment.path === state.selectedAttachmentPath] *)
Definition matchesSelected (sel : option string) (item : MediaItemType) : bool :=
  optstr_eqb (path (attachment item)) sel.

Definition shouldShowLightbox : StateType -> bool :=
  createSelector getLightboxState isShowingLightbox.

Definition getIsViewOnce : StateType -> bool :=
  createSelector getLightboxState
    (fun state => match state with NotShowing => false | Showing v _ _ => v end).

Definition getSelectedIndex : StateType -> Z :=
  createSelector getLightboxState
    (fun state =>
       match state with
       | NotShowing => 0
       | Showing _ media selectedAttachmentPath =>
           let index := findIndex (matchesSelected selectedAttachmentPath) media in
           if index >? 0 then index else 0
       end).

Definition getMedia : StateType -> list MediaItemType :=
  createSelector getLightboxState
    (fun state => match state with NotShowing => [] | Showing _ media _ => media end).

(** *** Facts about [findIndex] *)

Lemma findIndex_from_none {A} (p : A -> bool) l i :
  (forall x, In x l -> p x = false) -> findIndex_from p l i = -1.
Proof.
  revert i; induction l as [|x rest IH]; intros i H; simpl; [reflexivity|].
  rewrite (H x (or_introl eq_refl)). apply IH. intros; apply H; now right.
Qed.

Lemma findIndex_from_first {A} (p : A -> bool) l i n x :
  nth_error l n = Some x -> p x = true ->
  (forall k y, (k < n)%nat -> nth_error l k = Some y -> p y = false) ->
  findIndex_from p l i = i + Z.of_nat n.
Proof.
  revert i n; induction l as [|a rest IH]; intros i n Hn Hp Hbefore.
  - destruct n; discriminate.
  - destruct n as [|n]; simpl in *.
    + injection Hn as ->. rewrite Hp. lia.
    + rewrite (Hbefore 0%nat a) by (simpl; auto; lia).
      rewrite (IH (i + 1) n Hn Hp).
      * lia.
      * intros k y Hk Hy. apply (Hbefore (S k) y); [lia | exact Hy].
Qed.

Lemma findIndex_from_range {A} (p : A -> bool) l i :
  findIndex_from p l i = -1 \/ i <= findIndex_from p l i.
Proof.
  revert i; induction l as [|a rest IH]; intros i; simpl; [now left|].
  destruct (p a); [right; lia|].
  destruct (IH (i + 1)) as [E|E]; [now left | right; lia].
Qed.

(** C9. [getSelectedIndex] never returns a negative number. It returns [0]
    when the lightbox is not showing, when no media item's attachment path is
    the selected path, and when the first such item is at position [0];
    otherwise it returns the position of the first such item. The [-1] of
    [findIndex] never reaches the caller. *)
Theorem getSelectedIndex_never_negative (state : StateType) :
  0 <= getSelectedIndex state
  /\ (isShowingLightbox (lightbox state) = false -> getSelectedIndex state = 0)
  /\ (forall v media sel,
        lightbox state = Showing v media sel ->
        (forall item, In item media -> path (attachment item) <> sel) ->
        getSelectedIndex state = 0)
  /\ (forall v media sel n item,
        lightbox state = Showing v media sel ->
        nth_error media n = Some item ->
        path (attachment item) = sel ->
        (forall k other, (k < n)%nat -> nth_error media k = Some other ->
                         path (attachment other) <> sel) ->
        getSelectedIndex state = Z.of_nat n
        /\ (n = 0%nat -> getSelectedIndex state = 0)
        /\ (n <> 0%nat -> 0 < getSelectedIndex state)).
Proof.
  unfold getSelectedIndex, createSelector, getLightboxState.
  destruct state as [lb]. simpl.
  split; [|split; [|split]].
  - destruct lb as [|v media sel]; simpl; [lia|].
    destruct (findIndex (matchesSelected sel) media >? 0) eqn:E; [|lia].
    apply Z.gtb_lt in E. lia.
  - destruct lb; simpl; [reflexivity | discriminate].
  - intros v media sel -> Hnone. unfold findIndex.
    rewrite findIndex_from_none; [reflexivity|].
    intros item Hin. unfold matchesSelected.
    apply not_true_is_false. intros H. apply optstr_eqb_eq in H.
    exact (Hnone item Hin H).
  - intros v media sel n item -> Hn Hsel Hfirst.
    assert (Hidx : findIndex (matchesSelected sel) media = Z.of_nat n).
    { unfold findIndex.
      rewrite (findIndex_from_first _ media 0 n item); [lia|exact Hn| |].
      - unfold matchesSelected. now apply optstr_eqb_eq.
      - intros k other Hk Hother. unfold matchesSelected.
        apply not_true_is_false. intros H. apply optstr_eqb_eq in H.
        exact (Hfirst k other Hk Hother H). }
    rewrite Hidx.
    destruct (Z.of_nat n >? 0) eqn:E.
    + apply Z.gtb_lt in E. repeat split; lia.
    + assert (Z.of_nat n <= 0)
        by (destruct (Z.of_nat n); simpl in E; try lia; discriminate).
      repeat split; lia.
Qed.

Definition threeItems : list MediaItemType :=
  [ {| attachment := {| path := Some "a.jpg" |}; index := 0 |};
    {| attachment := {| path := None |}; index := 1 |};
    {| attachment := {| path := Some "c.jpg" |}; index := 2 |} ].

Definition showingThree : StateType :=
  {| lightbox := Showing false threeItems (Some "c.jpg") |}.

Lemma getSelectedIndex_never_negative_witness :
  getSelectedIndex showingThree = 2.
Proof.
  destruct (getSelectedIndex_never_negative showingThree) as (_ & _ & _ & Hfirst).
  destruct (Hfirst false threeItems (Some "c.jpg") 2%nat
                   {| attachment := {| path := Some "c.jpg" |}; index := 2 |})
    as (Hidx & _).
  - reflexivity.
  - reflexivity.
  - reflexivity.
  - intros k other Hk Hother.
    destruct k as [|[|k]]; simpl in Hother; try lia;
      injection Hother as <-; simpl; discriminate.
  - exact Hidx.
Defined.

(** *** The selected index as an index into the media *)

Lemma findIndex_from_found {A} (p : A -> bool) (l : list A) (i : Z) :
  (exists x, In x l /\ p x = true) ->
  exists n x, nth_error l n = Some x /\ p x = true
              /\ findIndex_from p l i = i + Z.of_nat n.
Proof.
  revert i. induction l as [|a rest IH]; intros i [x [Hin Hp]]; [destruct Hin|].
  simpl. destruct (p a) eqn:Pa.
  - exists 0%nat, a. repeat split; [assumption | lia].
  - destruct Hin as [->|Hin]; [congruence|].
    destruct (IH (i + 1) (ex_intro _ x (conj Hin Hp))) as (n & y & Hn & Hy & Hidx).
    exists (S n), y. repeat split; [assumption | assumption | lia].
Qed.

(** X13. For a lightbox that shows a non-empty media list the selected index
    is a position of that list. The item at that position has the selected
    attachment path whenever some item has it; when none has it, the index is
    [0] and the first item is shown. *)
Theorem getSelectedIndex_points_into_media (state : StateType) v media sel :
  lightbox state = Showing v media sel ->
  media <> [] ->
  0 <= getSelectedIndex state < Z.of_nat (List.length (getMedia state))
  /\ exists item,
      nth_error (getMedia state) (Z.to_nat (getSelectedIndex state)) = Some item
      /\ ((exists any, In any media /\ path (attachment any) = sel) ->
          path (attachment item) = sel)
      /\ ((forall any, In any media -> path (attachment any) <> sel) ->
          getSelectedIndex state = 0).
Proof.
  intros Hshow Hmedia.
  unfold getSelectedIndex, getMedia, createSelector, getLightboxState.
  rewrite Hshow. cbv zeta.
  destruct media as [|first others]; [congruence|]. clear Hmedia.
  set (media := first :: others).
  destruct (existsb (matchesSelected sel) media) eqn:Hany.
  - apply existsb_exists in Hany.
    destruct (findIndex_from_found (matchesSelected sel) media 0 Hany)
      as (n & item & Hn & Hitem & Hidx).
    unfold findIndex. rewrite Hidx.
    assert (Hlen : (n < List.length media)%nat)
      by (apply nth_error_Some; congruence).
    assert (Hres : (if 0 + Z.of_nat n >? 0 then 0 + Z.of_nat n else 0) = Z.of_nat n).
    { destruct (0 + Z.of_nat n >? 0) eqn:E; [lia|].
      destruct n; [reflexivity|]. simpl in E. discriminate. }
    rewrite Hres, Nat2Z.id. split; [lia|].
    exists item. split; [exact Hn|]. split.
    + intros _. unfold matchesSelected in Hitem. now apply optstr_eqb_eq.
    + intros Hnone. exfalso. destruct Hany as [any [Hin Hsel]].
      apply (Hnone any Hin). unfold matchesSelected in Hsel.
      now apply optstr_eqb_eq.
  - assert (Hnone : forall x, In x media -> matchesSelected sel x = false).
    { intros x Hin. apply not_true_is_false. intros Hx.
      assert (existsb (matchesSelected sel) media = true)
        by (apply existsb_exists; eauto). congruence. }
    unfold findIndex. rewrite (findIndex_from_none _ media 0 Hnone).
    simpl. split; [lia|].
    exists first. split; [reflexivity|]. split; [|reflexivity].
    intros [any [Hin Hsel]]. pose proof (Hnone any Hin) as Hno.
    unfold matchesSelected in Hno.
    apply optstr_eqb_eq in Hsel. congruence.
Qed.

Lemma getSelectedIndex_points_into_media_witness :
  0 <= getSelectedIndex showingThree < 3.
Proof.
  destruct (getSelectedIndex_points_into_media
              showingThree false threeItems (Some "c.jpg") eq_refl) as [Hrange _].
  - discriminate.
  - exact Hrange.
Defined.

End Lightbox.

(* ================================================================= *)
(** ** ConversationDetailsGroups.tsx *)

Module GroupsPanel.

Record ConversationType := { id : string; title : string }.

(** The children of the rendered [PanelSection], in order. *)
Inductive Row :=
| AddToGroupRow
| GroupRow (key : string) (label : string)
| ShowAllRow.

Definition maxShownGroupCount : Z := 5.

Definition isMoreThanMaxShown (groupsInCommon : list ConversationType) : bool :=
  Z.of_nat (List.length groupsInCommon) - maxShownGroupCount >? 1.

Definition groupsToShow (showAllGroups : bool)
           (groupsInCommon : list ConversationType) : Z :=
  if showAllGroups then Z.of_nat (List.length groupsInCommon) else maxShownGroupCount.

(** [arr.slice(0, n)] for a non-negative [n]. *)
Definition slice0 {A} (n : Z) (l : list A) : list A := firstn (Z.to_nat n) l.

Definition groupRow (group : ConversationType) : Row :=
  GroupRow (id group) (title group).

(** The component body: the children of the [PanelSection] it returns. The
    React state [showAllGroups] is an argument. *)
Definition ConversationDetailsGroups (showAllGroups : bool)
           (groupsInCommon : list ConversationType) : list Row :=
  AddToGroupRow
    :: map groupRow (slice0 (groupsToShow showAllGroups groupsInCommon) groupsInCommon)
    ++ (if negb showAllGroups && isMoreThanMaxShown groupsInCommon
        then [ShowAllRow] else []).

Definition isGroupRow (r : Row) : bool :=
  match r with GroupRow _ _ => true | _ => false end.

Definition groupRows (rows : list Row) : list Row := filter isGroupRow rows.

Lemma groupRows_map l : groupRows (map groupRow l) = map groupRow l.
Proof. induction l as [|g l IH]; simpl; [reflexivity | now rewrite IH]. Qed.

Lemma groupRows_render showAll groups :
  groupRows (ConversationDetailsGroups showAll groups)
  = map groupRow (slice0 (groupsToShow showAll groups) groups).
Proof.
  unfold ConversationDetailsGroups, groupRows. simpl. rewrite filter_app.
  fold (groupRows (map groupRow (slice0 (groupsToShow showAll groups) groups))).
  rewrite groupRows_map.
  destruct (negb showAll && isMoreThanMaxShown groups); simpl;
    now rewrite app_nil_r.
Qed.

Lemma showAll_in_render showAll groups :
  In ShowAllRow (ConversationDetailsGroups showAll groups)
  <-> negb showAll && isMoreThanMaxShown groups = true.
Proof.
  unfold ConversationDetailsGroups. split.
  - intros [H|H]; [discriminate|].
    apply in_app_or in H. destruct H as [H|H].
    + apply in_map_iff in H. destruct H as [g [Hg _]]. discriminate.
    + destruct (negb showAll && isMoreThanMaxShown groups);
        [reflexivity | destruct H].
  - intros ->. right. apply in_or_app. right. now left.
Qed.

Lemma isMoreThanMaxShown_iff groups :
  isMoreThanMaxShown groups = true <-> (7 <= List.length groups)%nat.
Proof.
  unfold isMoreThanMaxShown, maxShownGroupCount. split; intros H.
  - apply Z.gtb_lt in H. lia.
  - apply Z.gtb_lt. lia.
Qed.

(** C10. With [showAllGroups] false the panel renders at most 5 group rows,
    the first five groups, and renders the 'show all' row exactly when
    [groupsInCommon.length - 5 > 1], that is for 7 groups or more. For exactly
    6 groups it renders 5 group rows and no 'show all' row: the sixth group
    has no row and there is no row to reveal it. *)
Theorem collapsed_groups_rows (groupsInCommon : list ConversationType) :
  let rows := ConversationDetailsGroups false groupsInCommon in
  (List.length (groupRows rows) <= 5)%nat
  /\ groupRows rows = map groupRow (firstn 5 groupsInCommon)
  /\ (In ShowAllRow rows <-> Z.of_nat (List.length groupsInCommon) - 5 > 1)
  /\ (In ShowAllRow rows <-> (7 <= List.length groupsInCommon)%nat)
  /\ (List.length groupsInCommon = 6%nat ->
      rows = AddToGroupRow :: map groupRow (firstn 5 groupsInCommon)
      /\ List.length (groupRows rows) = 5%nat
      /\ ~ In ShowAllRow rows).
Proof.
  intros rows. subst rows.
  assert (Hrows : groupRows (ConversationDetailsGroups false groupsInCommon)
                  = map groupRow (firstn 5 groupsInCommon)).
  { rewrite groupRows_render. reflexivity. }
  assert (Hshow : In ShowAllRow (ConversationDetailsGroups false groupsInCommon)
                  <-> (7 <= List.length groupsInCommon)%nat).
  { rewrite showAll_in_render. simpl. apply isMoreThanMaxShown_iff. }
  split; [|split; [|split; [|split]]].
  - rewrite Hrows, length_map. apply firstn_le_length.
  - exact Hrows.
  - rewrite Hshow. lia.
  - exact Hshow.
  - intros Hsix. split; [|split].
    + unfold ConversationDetailsGroups. simpl.
      replace (isMoreThanMaxShown groupsInCommon) with false.
      * now rewrite app_nil_r.
      * symmetry. apply not_true_is_false. rewrite isMoreThanMaxShown_iff. lia.
    + rewrite Hrows, length_map, length_firstn. lia.
    + rewrite Hshow. lia.
Qed.

Definition sixGroups : list ConversationType :=
  [ {| id := "g1"; title := "One" |}; {| id := "g2"; title := "Two" |};
    {| id := "g3"; title := "Three" |}; {| id := "g4"; title := "Four" |};
    {| id := "g5"; title := "Five" |}; {| id := "g6"; title := "Six" |} ].

Lemma collapsed_groups_rows_witness :
  List.length (groupRows (ConversationDetailsGroups false sixGroups)) = 5%nat
  /\ ~ In ShowAllRow (ConversationDetailsGroups false sixGroups).
Proof.
  destruct (collapsed_groups_rows sixGroups) as (_ & _ & _ & _ & Hsix).
  destruct (Hsix eq_refl) as (_ & Hfive & Hnone).
  split; [exact Hfive | exact Hnone].
Defined.

(** *** Clicks *)

(** What a [PanelRow]'s [onClick] does. *)
Inductive Action :=
| ToggleAddUserToAnotherGroupModal (contactId : string)
| ShowConversation (conversationId : string) (switchToAssociatedView : bool)
| SetShowAllGroups (value : bool).

(** The [onClick] of each rendered row; a group row carries its group's id
    as its key. *)
Definition onClick (contactId : string) (row : Row) : Action :=
  match row with
  | AddToGroupRow => ToggleAddUserToAnotherGroupModal contactId
  | GroupRow key _ => ShowConversation key true
  | ShowAllRow => SetShowAllGroups true
  end.

(** The state [showAllGroups] of the next render after an action. *)
Definition afterClick (showAllGroups : bool) (action : Action) : bool :=
  match action with
  | SetShowAllGroups value => value
  | _ => showAllGroups
  end.

Definition rowKey (row : Row) : option string :=
  match row with GroupRow key _ => Some key | _ => None end.

Lemma slice0_all {A} (l : list A) : slice0 (Z.of_nat (List.length l)) l = l.
Proof. unfold slice0. rewrite Nat2Z.id. apply firstn_all. Qed.

(** X14. Clicking the 'show all' row expands the panel for good: in the next
    render every group of the list has its row, in list order, and there is
    no 'show all' row, however long the list is. *)
Theorem show_all_reveals_every_group (contactId : string)
        (groupsInCommon : list ConversationType) :
  let showAllGroups := afterClick false (onClick contactId ShowAllRow) in
  ConversationDetailsGroups showAllGroups groupsInCommon
  = AddToGroupRow :: map groupRow groupsInCommon
  /\ ~ In ShowAllRow (ConversationDetailsGroups showAllGroups groupsInCommon)
  /\ afterClick showAllGroups (onClick contactId AddToGroupRow) = true.
Proof.
  cbv zeta. simpl afterClick. split; [|split; [|reflexivity]].
  - unfold ConversationDetailsGroups. simpl.
    now rewrite slice0_all, app_nil_r.
  - rewrite showAll_in_render. simpl. discriminate.
Qed.

(** X15. With five groups or fewer the collapsed panel hides nothing: it
    renders the same rows as the expanded one, one row per group and no
    'show all' row. *)
Theorem up_to_five_groups_all_shown (groupsInCommon : list ConversationType) :
  (List.length groupsInCommon <= 5)%nat ->
  ConversationDetailsGroups false groupsInCommon
  = ConversationDetailsGroups true groupsInCommon
  /\ ConversationDetailsGroups false groupsInCommon
     = AddToGroupRow :: map groupRow groupsInCommon.
Proof.
  intros Hlen.
  assert (Hcollapsed : ConversationDetailsGroups false groupsInCommon
                       = AddToGroupRow :: map groupRow groupsInCommon).
  { unfold ConversationDetailsGroups, groupsToShow, slice0, maxShownGroupCount.
    replace (isMoreThanMaxShown groupsInCommon) with false.
    - change (Z.to_nat 5) with 5%nat. rewrite firstn_all2 by exact Hlen.
      simpl. now rewrite app_nil_r.
    - symmetry. apply not_true_is_false. rewrite isMoreThanMaxShown_iff. lia. }
  split; [|exact Hcollapsed].
  rewrite Hcollapsed. unfold ConversationDetailsGroups. simpl.
  now rewrite slice0_all, app_nil_r.
Qed.

Lemma up_to_five_groups_all_shown_witness :
  ConversationDetailsGroups false (firstn 5 sixGroups)
  = ConversationDetailsGroups true (firstn 5 sixGroups).
Proof.
  destruct (up_to_five_groups_all_shown (firstn 5 sixGroups)) as [Hsame _].
  - simpl. lia.
  - exact Hsame.
Defined.

Lemma rendered_group_rows showAllGroups (groupsInCommon : list ConversationType) :
  exists shown hidden,
    groupsInCommon = shown ++ hidden
    /\ groupRows (ConversationDetailsGroups showAllGroups groupsInCommon)
       = map groupRow shown.
Proof.
  rewrite groupRows_render. unfold slice0.
  exists (firstn (Z.to_nat (groupsToShow showAllGroups groupsInCommon)) groupsInCommon),
         (skipn (Z.to_nat (groupsToShow showAllGroups groupsInCommon)) groupsInCommon).
  split; [symmetry; apply firstn_skipn | reflexivity].
Qed.

(** X16. In either state the group rows stand for a leading part of the
    list, one row per group in list order: a row's key is its group's id and
    its label the group's title, clicking it shows that group's conversation
    with [switchToAssociatedView], and when the groups have distinct ids the
    rows have distinct keys. *)
Theorem group_rows_follow_the_list (contactId : string) (showAllGroups : bool)
        (groupsInCommon : list ConversationType) :
  exists shown hidden,
    groupsInCommon = shown ++ hidden
    /\ groupRows (ConversationDetailsGroups showAllGroups groupsInCommon)
       = map (fun group => GroupRow (id group) (title group)) shown
    /\ map (onClick contactId)
           (groupRows (ConversationDetailsGroups showAllGroups groupsInCommon))
       = map (fun group => ShowConversation (id group) true) shown
    /\ (NoDup (map id groupsInCommon) ->
        NoDup (map rowKey
                   (groupRows (ConversationDetailsGroups showAllGroups groupsInCommon)))).
Proof.
  destruct (rendered_group_rows showAllGroups groupsInCommon)
    as (shown & hidden & Hsplit & Hrows).
  exists shown, hidden. split; [exact Hsplit|]. rewrite Hrows.
  split; [reflexivity|]. split.
  - rewrite map_map. reflexivity.
  - intros Hnd. rewrite map_map. simpl.
    rewrite Hsplit, map_app in Hnd. apply NoDup_app_remove_r in Hnd.
    clear Hsplit Hrows. induction shown as [|g rest IH]; simpl; [constructor|].
    inversion Hnd as [|? ? Hnotin Hrest]; subst. constructor; [|auto].
    intros Hin. apply Hnotin. apply in_map_iff in Hin.
    destruct Hin as [g' [Hkey Hin]]. injection Hkey as Hkey.
    rewrite <- Hkey. now apply in_map.
Qed.

Lemma group_rows_follow_the_list_witness :
  NoDup (map rowKey (groupRows (ConversationDetailsGroups false sixGroups))).
Proof.
  destruct (group_rows_follow_the_list "contact" false sixGroups)
    as (shown & hidden & _ & _ & _ & Hkeys).
  apply Hkeys. simpl.
  repeat constructor; simpl; intuition discriminate.
Defined.

End GroupsPanel.


(* ================================================================= *)
(** ** ts/messageModifiers/Reactions.ts *)

Module Reactions.

(** *** Data model *)

(** [ReactionAttributesType]: the attributes a [ReactionModel] carries. *)
Record ReactionAttributesType := {
  emoji : string;
  fromId : string;
  targetAuthorUuid : string;
  targetTimestamp : Z;
  timestamp : Z
}.

(** A Backbone model is an object; [cid] is Backbone's client id and stands
    for the identity of the object. [reaction.get('k')] reads [attributes]. *)
Record ReactionModel := {
  cid : nat;
  attributes : ReactionAttributesType
}.

Record ConversationAttributesType := {
  conv_type : string;
  conv_uuid : option string;
  conv_expireTimer : option Z
}.

Record ConversationModel := {
  conv_id : string;
  conv_attributes : ConversationAttributesType
}.

Record StoryReactionType := {
  sr_emoji : string;
  sr_targetAuthorUuid : string;
  sr_targetTimestamp : Z
}.

Record MessageAttributesType := {
  msg_id : string;
  conversationId : string;
  sent_at : Z;
  msg_type : string;
  sourceUuid : option string;
  expireTimer : option Z;
  storyId : option string;
  storyReaction : option StoryReactionType;
  reactions : list ReactionAttributesType
}.

(** A [MessageModel] handed in by the caller is a reference to a mutable
    object; its attributes live in the [heap] of the world below. *)
Definition MessageModel := nat.

(** A model obtained from [window.MessageController.register(id, data)]. *)
Record RegisteredModel := {
  reg_id : string;
  reg_data : MessageAttributesType
}.

(** A thrown JavaScript [Error], identified by its message. *)
Definition Err := string.

Inductive Outcome (A : Type) :=
| Ok (a : A)
| Throw (e : Err).
Arguments Ok {A} a.
Arguments Throw {A} e.

(** What is handed to [log.info]; an object literal is listed field by field. *)
Inductive LogArg :=
| LStr (s : string)
| LNum (n : Z)
| LFieldStr (name : string) (s : string)
| LFieldNum (name : string) (n : Z).

(** The calls an invocation makes on its collaborators, in program order. *)
Inductive Event :=
| EvLogInfo (text : string) (args : list LogArg)
| EvLogError (text : string) (detail : string)
| EvLookupOrCreate (uuid reason : string)
| EvConversationGet (id : string)
| EvGetConversationForTargetMessage (targetConversationId : string) (ts : Z)
| EvGetMessagesBySentAt (ts : Z) (response : Outcome (list MessageAttributesType))
| EvQueueJob (conversation : ConversationModel) (name : string)
| EvRegister (id : string)
| EvSaveMessage (data : MessageAttributesType) (ourUuid : string) (forceSave : bool)
| EvHydrateStoryContext (generated : MessageModel) (story : RegisteredModel)
| EvAddSingleMessage (conversation : ConversationModel) (message : RegisteredModel)
| EvHandleReaction (message : RegisteredModel) (reaction : ReactionModel).

(** *** Collaborators

    Everything [Reactions.ts] imports or reaches through [window]. [X] is the
    state behind them (message store, conversation message lists, registered
    models, job queues). Awaited and mutating calls transform [X] and may
    throw (reject); directory look-ups and classification helpers are
    functions of their arguments: the identity directory is idempotent, so
    the answer for a reference does not depend on when it is asked.
    [hydrateStoryContext] is a method of the caller-held generated message:
    it is given that model's attributes and returns the attributes it leaves.
    [secondSettlesFirst] stands for timing, which the embedding does not
    have: of two rejecting members of a [Promise.all], whether the second
    one's rejection is the one that settles first. *)
Class Collaborators (X : Type) := {
  (* window.ConversationController *)
  lookupOrCreate : string -> option ConversationModel;
  ConversationController_get : string -> option ConversationModel;
  getConversationForTargetMessage :
    string -> Z -> X -> Outcome (option ConversationModel) * X;
  (* ../messages/helpers *)
  getContactId : MessageAttributesType -> option string;
  getContact : MessageAttributesType -> option ConversationModel;
  (* ../util/whatTypeOfConversation, ../state/selectors/message *)
  isDirectConversation : ConversationAttributesType -> bool;
  isMe : ConversationAttributesType -> bool;
  isOutgoing : MessageAttributesType -> bool;
  isStory : MessageAttributesType -> bool;
  (* ../util/idForLogging, ../types/errors *)
  getMessageIdForLogging : MessageAttributesType -> string;
  toLogFormat : Err -> string;
  (* window.Signal.Data, window.textsecure.storage.user *)
  getMessagesBySentAt : Z -> X -> Outcome (list MessageAttributesType) * X;
  saveMessage : MessageAttributesType -> string -> bool -> X -> Outcome unit * X;
  getCheckedUuid : X -> Outcome string;
  (* MessageModel and ConversationModel methods *)
  hydrateStoryContext :
    MessageAttributesType -> RegisteredModel -> X
    -> Outcome unit * MessageAttributesType * X;
  secondSettlesFirst : X -> bool;
  handleReaction : RegisteredModel -> ReactionModel -> X -> Outcome unit * X;
  addSingleMessage : ConversationModel -> RegisteredModel -> X -> Outcome unit * X;
  (* the wait for the conversation's job queue to reach a new job *)
  queueJob_turn : ConversationModel -> string -> X -> Outcome unit * X
}.

(** *** Backbone.Collection operations on the array of models *)

Definition same_model (a b : ReactionModel) : bool := Nat.eqb (cid a) (cid b).

(** Removing one model: the collection looks the model up by its [cid] and
    splices that entry out; a model that is not in the collection is skipped. *)
Fixpoint remove_model (m : ReactionModel) (models : list ReactionModel)
  : list ReactionModel :=
  match models with
  | [] => []
  | x :: rest => if same_model x m then rest else x :: remove_model m rest
  end.

(** [collection.remove(models)]. *)
Definition Collection_remove (toRemove models : list ReactionModel)
  : list ReactionModel :=
  fold_left (fun acc m => remove_model m acc) toRemove models.

(** A collection never holds the same object twice. *)
Definition distinct_models (models : list ReactionModel) : Prop :=
  NoDup (map cid models).

(** *** The world and the effect monad *)

Section Methods.

Context {X : Type} {collab : Collaborators X}.

Record World := {
  collection : list ReactionModel;             (* the singleton's models *)
  heap : MessageModel -> MessageAttributesType; (* attributes of caller-held models *)
  ext : X
}.

Definition with_collection (c : list ReactionModel) (w : World) : World :=
  {| collection := c; heap := heap w; ext := ext w |}.

Definition with_heap (h : MessageModel -> MessageAttributesType) (w : World) : World :=
  {| collection := collection w; heap := h; ext := ext w |}.

Definition with_ext (x : X) (w : World) : World :=
  {| collection := collection w; heap := heap w; ext := x |}.

(** A computation runs from a world to an outcome, the world it leaves and
    the events it emitted. [async] functions are run to completion: a
    rejected promise is a [Throw] at the [await]. *)
Definition M (A : Type) : Type := World -> Outcome A * World * list Event.

Definition ret {A} (a : A) : M A := fun w => (Ok a, w, []).

Definition throw {A} (e : Err) : M A := fun w => (Throw e, w, []).

Definition bind {A B} (m : M A) (k : A -> M B) : M B :=
  fun w =>
    match m w with
    | (Ok a, w1, ev1) =>
        match k a w1 with (o, w2, ev2) => (o, w2, ev1 ++ ev2) end
    | (Throw e, w1, ev1) => (Throw e, w1, ev1)
    end.

(** [try { body } catch (error) { handler }] *)
Definition tryCatch {A} (body : M A) (handler : Err -> M A) : M A :=
  fun w =>
    match body w with
    | (Ok a, w1, ev1) => (Ok a, w1, ev1)
    | (Throw e, w1, ev1) =>
        match handler e w1 with (o, w2, ev2) => (o, w2, ev1 ++ ev2) end
    end.

Definition emit (e : Event) : M unit := fun w => (Ok tt, w, [e]).

(** A call on a collaborator: the event, then its effect on [X]. *)
Definition call {A} (e : Event) (f : X -> Outcome A * X) : M A :=
  fun w => match f (ext w) with (o, x) => (o, with_ext x w, [e]) end.

(** A method called on the caller-held model [m]: the event, then its effect
    on the model's attributes and on [X]. *)
Definition call_on {A} (e : Event) (m : MessageModel)
           (f : MessageAttributesType -> X -> Outcome A * MessageAttributesType * X)
  : M A :=
  fun w =>
    match f (heap w m) (ext w) with
    | (o, a, x) =>
        (o,
         with_heap (fun r => if Nat.eqb r m then a else heap w r) (with_ext x w),
         [e])
    end.

Definition outcome {A} (r : Outcome A * World * list Event) : Outcome A := fst (fst r).
Definition final {A} (r : Outcome A * World * list Event) : World := snd (fst r).
Definition events {A} (r : Outcome A * World * list Event) : list Event := snd r.

Notation "x <- m ;; k" := (bind m (fun x => k))
  (at level 61, m at next level, right associativity).
Notation "m ;;; k" := (bind m (fun _ => k))
  (at level 61, right associativity).

(** [model.attributes] of a caller-held model, and [model.set(...)]. *)
Definition get_attributes (m : MessageModel) : M MessageAttributesType :=
  fun w => (Ok (heap w m), w, []).

Definition set_attributes (m : MessageModel)
           (f : MessageAttributesType -> MessageAttributesType) : M unit :=
  fun w =>
    (Ok tt,
     with_heap (fun r => if Nat.eqb r m then f (heap w r) else heap w r) w,
     []).

(** [this.filter(pred)] with a predicate that may call collaborators. *)
Fixpoint filterM (pred : ReactionModel -> M bool) (models : list ReactionModel)
  : M (list ReactionModel) :=
  match models with
  | [] => ret []
  | x :: rest =>
      keep <- pred x ;;
      kept <- filterM pred rest ;;
      ret (if keep then x :: kept else kept)
  end.

Definition this_filter (pred : ReactionModel -> M bool) : M (list ReactionModel) :=
  fun w => filterM pred (collection w) w.

(** [this.remove(models)] *)
Definition this_remove (toRemove : list ReactionModel) : M unit :=
  fun w =>
    (Ok tt, with_collection (Collection_remove toRemove (collection w)) w, []).

Definition log_info (text : string) (args : list LogArg) : M unit :=
  emit (EvLogInfo text args).

Definition log_error (text : string) (detail : string) : M unit :=
  emit (EvLogError text detail).

Definition call_lookupOrCreate (uuid reason : string) : M (option ConversationModel) :=
  emit (EvLookupOrCreate uuid reason) ;;; ret (lookupOrCreate uuid).

Definition call_ConversationController_get (id : string)
  : M (option ConversationModel) :=
  emit (EvConversationGet id) ;;; ret (ConversationController_get id).

(** [window.MessageController.register(id, data)]: the registered model is
    represented by the id it is registered under and the attributes handed
    in; for [generatedMessage] (line 207) these are the attributes the model
    has at the call. *)
Definition register (id : string) (data : MessageAttributesType) : M RegisteredModel :=
  emit (EvRegister id) ;;; ret {| reg_id := id; reg_data := data |}.

(** [await Promise.all([a, b])]: both calls have been started when the
    array is built, in order; the result rejects when either rejects, with
    the rejection that settles first. *)
Definition Promise_all2 (a b : M unit) : M unit :=
  fun w =>
    match a w with
    | (oa, w1, ev1) =>
        match b w1 with
        | (ob, w2, ev2) =>
            (match oa with
             | Ok _ => ob
             | Throw ea =>
                 match ob with
                 | Ok _ => Throw ea
                 | Throw eb =>
                     if secondSettlesFirst (ext w2) then Throw eb else Throw ea
                 end
             end, w2, ev1 ++ ev2)
        end
    end.

(** *** [Reactions.forMessage] *)

Definition forMessage (message : MessageModel) : M (list ReactionModel) :=
  msg <- get_attributes message ;;
  let bySource : M (list ReactionModel) :=
    let senderId := getContactId msg in
    let sentAt := sent_at msg in
    reactionsBySource <-
      this_filter (fun re =>
        targetSender <-
          call_lookupOrCreate (targetAuthorUuid (attributes re)) "Reactions.forMessage" ;;
        let targetTimestamp := targetTimestamp (attributes re) in
        ret (optstr_eqb (option_map conv_id targetSender) senderId
             && (targetTimestamp =? sentAt))) ;;
    if (0 <? Z.of_nat (List.length reactionsBySource)) then
      log_info "Found early reaction for message" [] ;;;
      this_remove reactionsBySource ;;;
      ret reactionsBySource
    else ret []
  in
  if isOutgoing msg then
    outgoingReactions <-
      this_filter (fun item =>
        ret (targetTimestamp (attributes item) =? sent_at msg)) ;;
    if (0 <? Z.of_nat (List.length outgoingReactions)) then
      log_info "Found early reaction for outgoing message" [] ;;;
      this_remove outgoingReactions ;;;
      ret outgoingReactions
    else bySource
  else bySource.

(** *** [Reactions.findMessage] *)

(** The callback of [messages.find]. *)
Definition sentBy (targetConversationId : string) (m : MessageAttributesType) : bool :=
  match getContact m with
  | None => false
  | Some contact => String.eqb (conv_id contact) targetConversationId
  end.

Definition findMessage (targetTimestamp : Z) (targetConversationId : string)
  : M (option MessageAttributesType) :=
  fun w =>
    match getMessagesBySentAt targetTimestamp (ext w) with
    | (Ok messages, x) =>
        (Ok (find (sentBy targetConversationId) messages), with_ext x w,
         [EvGetMessagesBySentAt targetTimestamp (Ok messages)])
    | (Throw e, x) =>
        (Throw e, with_ext x w, [EvGetMessagesBySentAt targetTimestamp (Throw e)])
    end.

(** *** [Reactions.onReaction] *)

Definition call_getCheckedUuid : M string :=
  fun w => (getCheckedUuid (ext w), w, []).

(** The attributes after [generatedMessage.set({ expireTimer, storyId,
    storyReaction })] (lines 177-185). *)
Definition withStoryReaction (reaction : ReactionModel)
           (targetConversation : ConversationModel)
           (targetMessage : MessageAttributesType) (a : MessageAttributesType)
  : MessageAttributesType :=
  {| msg_id := msg_id a;
     conversationId := conversationId a;
     sent_at := sent_at a;
     msg_type := msg_type a;
     sourceUuid := sourceUuid a;
     expireTimer := conv_expireTimer (conv_attributes targetConversation);
     storyId := Some (msg_id targetMessage);
     storyReaction :=
       Some {| sr_emoji := emoji (attributes reaction);
               sr_targetAuthorUuid := targetAuthorUuid (attributes reaction);
               sr_targetTimestamp := targetTimestamp (attributes reaction) |};
     reactions := reactions a |}.

(** The body of [if (isStory(targetMessage))] (lines 177-211): the generated
    message becomes the stored record of the story reaction. *)
Definition addReactionToStory (reaction : ReactionModel)
           (generatedMessage : MessageModel) (targetConversation : ConversationModel)
           (targetMessage : MessageAttributesType) (message : RegisteredModel)
  : M unit :=
  set_attributes generatedMessage
    (withStoryReaction reaction targetConversation targetMessage) ;;;
  data <- get_attributes generatedMessage ;;
  ourUuid <- call_getCheckedUuid ;;
  Promise_all2
    (call (EvSaveMessage data ourUuid true) (saveMessage data ourUuid true))
    (call_on (EvHydrateStoryContext generatedMessage message) generatedMessage
             (fun generated => hydrateStoryContext generated message)) ;;;
  generated <- get_attributes generatedMessage ;;
  log_info "Reactions.onReaction adding reaction to story"
    [LFieldStr "reactionMessageId" (getMessageIdForLogging generated);
     LFieldStr "storyId" (getMessageIdForLogging targetMessage);
     LFieldNum "targetTimestamp" (targetTimestamp (attributes reaction));
     LFieldNum "timestamp" (timestamp (attributes reaction))] ;;;
  messageToAdd <- register (msg_id generated) generated ;;
  call (EvAddSingleMessage targetConversation messageToAdd)
       (addSingleMessage targetConversation messageToAdd).

(** The callback handed to [queueJob] (lines 150-217), closed over
    [reaction], [generatedMessage], [targetConversation] and
    [targetConversationId]. *)
Definition applyJob (reaction : ReactionModel) (generatedMessage : MessageModel)
           (targetConversation : option ConversationModel)
           (targetConversationId : string) : M unit :=
  log_info "Handling reaction for" [LNum (targetTimestamp (attributes reaction))] ;;;
  match targetConversation with
  | None => ret tt
  | Some targetConversation =>
      targetMessage <-
        findMessage (targetTimestamp (attributes reaction)) targetConversationId ;;
      match targetMessage with
      | None => ret tt
      | Some targetMessage =>
          message <- register (msg_id targetMessage) targetMessage ;;
          (if isStory targetMessage then
             addReactionToStory reaction generatedMessage targetConversation
                                targetMessage message
           else ret tt) ;;;
          call (EvHandleReaction message reaction) (handleReaction message reaction) ;;;
          this_remove [reaction]
      end
  end.

(** Modelled from the spec: [ConversationModel.queueJob] is not part of
    [Reactions.ts]. Section 6 gives its contract: [enqueue(conversationId,
    label, asyncTask) -> completion], FIFO, one job at a time per
    conversation. The job waits for its turn, runs once, and the returned
    promise settles as the job does. *)
Definition queueJob {A} (conversation : ConversationModel) (name : string)
           (job : M A) : M A :=
  call (EvQueueJob conversation name) (queueJob_turn conversation name) ;;;
  job.

(** [!targetConversationId]: [undefined] and the empty string are falsy. *)
Definition truthy (s : option string) : option string :=
  match s with
  | Some "" => None
  | other => other
  end.

(** The condition of the [if] at lines 125-130. *)
Definition storyInDirectConversation (fromConversation : option ConversationModel)
           (targetMessageCheck : MessageAttributesType) : bool :=
  match fromConversation with
  | None => false
  | Some fromConversation =>
      isStory targetMessageCheck
      && isDirectConversation (conv_attributes fromConversation)
      && negb (isMe (conv_attributes fromConversation))
  end.

Definition reactionLogArgs (reaction : ReactionModel) : list LogArg :=
  [LStr (targetAuthorUuid (attributes reaction));
   LNum (targetTimestamp (attributes reaction))].

(** The block inside [try { ... }] (lines 91-217). *)
Definition onReaction_try (reaction : ReactionModel) (generatedMessage : MessageModel)
  : M unit :=
  targetAuthorConversation <-
    call_lookupOrCreate (targetAuthorUuid (attributes reaction)) "Reactions.onReaction" ;;
  match truthy (option_map conv_id targetAuthorConversation) with
  | None => throw "onReaction: No conversationId returned from lookupOrCreate!"
  | Some targetConversationId =>
      generated <- get_attributes generatedMessage ;;
      fromConversation <- call_ConversationController_get (conversationId generated) ;;
      targetMessageCheck <-
        findMessage (targetTimestamp (attributes reaction)) targetConversationId ;;
      match targetMessageCheck with
      | None => log_info "No message for reaction" (reactionLogArgs reaction)
      | Some targetMessageCheck =>
          targetConversation <-
            (if storyInDirectConversation fromConversation targetMessageCheck
             then ret fromConversation
             else call (EvGetConversationForTargetMessage
                          targetConversationId (targetTimestamp (attributes reaction)))
                       (getConversationForTargetMessage
                          targetConversationId (targetTimestamp (attributes reaction)))) ;;
          match targetConversation with
          | None =>
              log_info "No target conversation for reaction" (reactionLogArgs reaction)
          | Some conversation =>
              queueJob conversation "Reactions.onReaction"
                (applyJob reaction generatedMessage targetConversation
                          targetConversationId)
          end
      end
  end.

Definition onReaction (reaction : ReactionModel) (generatedMessage : MessageModel)
  : M unit :=
  tryCatch
    (onReaction_try reaction generatedMessage)
    (fun error => log_error "Reactions.onReaction error:" (toLogFormat error)).

(** *** Reading a run *)


Definition isLogError (e : Event) : bool :=
  match e with EvLogError _ _ => true | _ => false end.

Definition isLookupOrCreate (e : Event) : bool :=
  match e with EvLookupOrCreate _ _ => true | _ => false end.

Definition isGetConversationForTargetMessage (e : Event) : bool :=
  match e with EvGetConversationForTargetMessage _ _ => true | _ => false end.

Definition isQueueJob (e : Event) : bool :=
  match e with EvQueueJob _ _ => true | _ => false end.

(** An event through which a message or a conversation's message list is
    changed: a store write, a model method or a list insertion. *)
Definition isMutation (e : Event) : bool :=
  match e with
  | EvSaveMessage _ _ _ | EvHydrateStoryContext _ _
  | EvAddSingleMessage _ _ | EvHandleReaction _ _ => true
  | _ => false
  end.

Definition calls (p : Event -> bool) (evs : list Event) : nat :=
  List.length (filter p evs).

(** The conversations whose queue received a job, with the job's name. *)
Definition queuedOn (evs : list Event) : list (ConversationModel * string) :=
  flat_map (fun e =>
              match e with
              | EvQueueJob conversation name => [(conversation, name)]
              | _ => []
              end) evs.

(** What each [findMessage] of the run returned, in order. *)
Definition lookupResults (targetConversationId : string) (evs : list Event)
  : list (option MessageAttributesType) :=
  flat_map (fun e =>
              match e with
              | EvGetMessagesBySentAt _ (Ok messages) =>
                  [find (sentBy targetConversationId) messages]
              | _ => []
              end) evs.

End Methods.

Notation "x <- m ;; k" := (bind m (fun x => k))
  (at level 61, m at next level, right associativity).
Notation "m ;;; k" := (bind m (fun _ => k))
  (at level 61, right associativity).

(* ----------------------------------------------------------------- *)
(** *** A concrete client

    An in-memory client against which runs can be evaluated: a fixed
    identity directory, a message store held as a list, and per-conversation
    message lists. *)

Module Scenario.

Record Client := {
  stored : list MessageAttributesType;        (* the message store *)
  threads : list (string * string);           (* (conversation id, message id) *)
  jobsAhead : list string;                    (* ids deleted by jobs queued before ours *)
  diskFull : bool                             (* the next store write fails *)
}.

Definition alice : ConversationModel :=
  {| conv_id := "conv-alice";
     conv_attributes := {| conv_type := "private"; conv_uuid := Some "uuid-alice";
                           conv_expireTimer := Some 60 |} |}.

Definition bob : ConversationModel :=
  {| conv_id := "conv-bob";
     conv_attributes := {| conv_type := "private"; conv_uuid := Some "uuid-bob";
                           conv_expireTimer := None |} |}.

Definition me : ConversationModel :=
  {| conv_id := "conv-me";
     conv_attributes := {| conv_type := "private"; conv_uuid := Some "uuid-me";
                           conv_expireTimer := None |} |}.

Definition family : ConversationModel :=
  {| conv_id := "conv-family";
     conv_attributes := {| conv_type := "group"; conv_uuid := None;
                           conv_expireTimer := None |} |}.

Definition directory : list ConversationModel := [alice; bob; me; family].

(** Modelled from the spec: the identity directory of section 6,
    [lookupOrCreateIdentity(opaqueRef) -> identityId | fails]; an empty
    reference yields nothing, an unknown one a placeholder. *)
Definition directory_lookupOrCreate (uuid : string) : option ConversationModel :=
  if String.eqb uuid "" then None
  else
    match find (fun c => optstr_eqb (conv_uuid (conv_attributes c)) (Some uuid)) directory with
    | Some c => Some c
    | None =>
        Some {| conv_id := String.append "conv-" uuid;
                conv_attributes := {| conv_type := "private"; conv_uuid := Some uuid;
                                      conv_expireTimer := None |} |}
    end.

(** Modelled from the spec: [getConversation(id) -> conversation | absent]. *)
Definition directory_get (id : string) : option ConversationModel :=
  find (fun c => String.eqb (conv_id c) id) directory.

Definition message_contact (m : MessageAttributesType) : option ConversationModel :=
  match sourceUuid m with
  | Some u => directory_lookupOrCreate u
  | None => None
  end.

(** Modelled from the spec: [findMessagesBySentAt(timestamp)]. *)
Definition store_getMessagesBySentAt (ts : Z) (c : Client)
  : Outcome (list MessageAttributesType) * Client :=
  (Ok (filter (fun m => sent_at m =? ts) (stored c)), c).

(** Modelled from the spec: [resolveConversationForTargetMessage(author,
    timestamp)], which checks that a conversation holds a message of that
    author at that timestamp. *)
Definition directory_getConversationForTargetMessage (author : string) (ts : Z)
           (c : Client) : Outcome (option ConversationModel) * Client :=
  (Ok match find (fun m => (sent_at m =? ts)
                           && optstr_eqb (option_map conv_id (message_contact m))
                                         (Some author)) (stored c) with
      | Some m => directory_get (conversationId m)
      | None => None
      end, c).

(** Modelled from the spec: [persistMessage(message, options) -> ok | fails]. *)
Definition store_saveMessage (data : MessageAttributesType) (ourUuid : string)
           (forceSave : bool) (c : Client) : Outcome unit * Client :=
  if diskFull c then (Throw "saveMessage: disk full", c)
  else (Ok tt, {| stored := stored c ++ [data]; threads := threads c;
                  jobsAhead := jobsAhead c; diskFull := diskFull c |}).

(** Modelled from the spec: section 4.3 step 6c, the reaction is attached in
    place onto the target message's own reaction list, keyed by sender; a
    later reaction of the same sender replaces the earlier one. *)
Definition attach (reaction : ReactionAttributesType) (m : MessageAttributesType)
  : MessageAttributesType :=
  {| msg_id := msg_id m; conversationId := conversationId m; sent_at := sent_at m;
     msg_type := msg_type m; sourceUuid := sourceUuid m; expireTimer := expireTimer m;
     storyId := storyId m; storyReaction := storyReaction m;
     reactions :=
       filter (fun r => negb (String.eqb (fromId r) (fromId reaction))) (reactions m)
       ++ [reaction] |}.

(** Modelled from the spec: [message.handleReaction(reaction)]. Section 4.3
    step 6 attaches in place only for an ordinary message (6c, 'Otherwise');
    for a story nothing is attached to the story itself (6b, and section 8:
    'not an in-place edit of the story'). *)
Definition model_handleReaction (message : RegisteredModel) (reaction : ReactionModel)
           (c : Client) : Outcome unit * Client :=
  if String.eqb (msg_type (reg_data message)) "story" then (Ok tt, c)
  else
    (Ok tt,
     {| stored := map (fun m => if String.eqb (msg_id m) (reg_id message)
                                then attach (attributes reaction) m else m) (stored c);
        threads := threads c; jobsAhead := jobsAhead c; diskFull := diskFull c |}).

(** Modelled from the spec: step 6b lists what the story branch puts on the
    generated message (emoji, target author, target timestamp);
    [hydrateStoryContext] adds none of the attributes modelled here. *)
Definition model_hydrateStoryContext (generated : MessageAttributesType)
           (story : RegisteredModel) (c : Client)
  : Outcome unit * MessageAttributesType * Client :=
  (Ok tt, generated, c).

Definition model_addSingleMessage (conversation : ConversationModel)
           (message : RegisteredModel) (c : Client) : Outcome unit * Client :=
  (Ok tt, {| stored := stored c;
             threads := threads c ++ [(conv_id conversation, reg_id message)];
             jobsAhead := jobsAhead c; diskFull := diskFull c |}).

(** Modelled from the spec: the per-conversation serialized queue of
    section 6; the jobs queued earlier run first (here: deletions). *)
Definition queue_turn (conversation : ConversationModel) (name : string)
           (c : Client) : Outcome unit * Client :=
  (Ok tt,
   {| stored := filter (fun m => negb (existsb (String.eqb (msg_id m)) (jobsAhead c)))
                       (stored c);
      threads := threads c; jobsAhead := []; diskFull := diskFull c |}).

#[export] Instance client : Collaborators Client := {|
  lookupOrCreate := directory_lookupOrCreate;
  ConversationController_get := directory_get;
  getConversationForTargetMessage := directory_getConversationForTargetMessage;
  getContactId := fun m => option_map conv_id (message_contact m);
  getContact := message_contact;
  isDirectConversation := fun a => String.eqb (conv_type a) "private";
  isMe := fun a => optstr_eqb (conv_uuid a) (Some "uuid-me");
  isOutgoing := fun m => String.eqb (msg_type m) "outgoing";
  isStory := fun m => String.eqb (msg_type m) "story";
  getMessageIdForLogging := msg_id;
  toLogFormat := fun e => e;
  getMessagesBySentAt := store_getMessagesBySentAt;
  saveMessage := store_saveMessage;
  getCheckedUuid := fun _ => Ok "uuid-me";
  hydrateStoryContext := model_hydrateStoryContext;
  secondSettlesFirst := fun _ => false;
  handleReaction := model_handleReaction;
  addSingleMessage := model_addSingleMessage;
  queueJob_turn := queue_turn
|}.

Definition mkMessage (id conv : string) (ts : Z) (type : string)
           (source : option string) : MessageAttributesType :=
  {| msg_id := id; conversationId := conv; sent_at := ts; msg_type := type;
     sourceUuid := source; expireTimer := None; storyId := None;
     storyReaction := None; reactions := [] |}.

Definition mkReaction (c : nat) (e sender author : string) (ts sent : Z)
  : ReactionModel :=
  {| cid := c;
     attributes := {| emoji := e; fromId := sender; targetAuthorUuid := author;
                      targetTimestamp := ts; timestamp := sent |} |}.

(** Alice's message of time 1000 in the family group, Alice's story of
    time 2000, and our own message of time 3000 to Bob. *)
Definition hello : MessageAttributesType :=
  mkMessage "m-hello" "conv-family" 1000 "incoming" (Some "uuid-alice").
Definition story : MessageAttributesType :=
  mkMessage "m-story" "conv-alice" 2000 "story" (Some "uuid-alice").
Definition sent : MessageAttributesType :=
  mkMessage "m-sent" "conv-bob" 3000 "outgoing" (Some "uuid-me").

(** Reactions: Bob's heart on [hello], Bob's thumb on [story], Bob's laugh
    on [sent], and one whose target author cannot be resolved. *)
Definition heart : ReactionModel := mkReaction 1 "heart" "conv-bob" "uuid-alice" 1000 1500.
Definition thumb : ReactionModel := mkReaction 2 "thumb" "conv-bob" "uuid-alice" 2000 2500.
Definition laugh : ReactionModel := mkReaction 3 "laugh" "conv-bob" "uuid-me" 3000 3500.
Definition orphan : ReactionModel := mkReaction 4 "heart" "conv-bob" "" 1000 1500.

(** The placeholder message that carries a reaction received in Bob's thread,
    held by the caller as model [0]; model [1] is [hello], model [2] is
    [sent]. *)
Definition carrier : MessageAttributesType :=
  mkMessage "m-carrier" "conv-bob" 2500 "incoming" (Some "uuid-bob").

Definition models (r : MessageModel) : MessageAttributesType :=
  match r with
  | O => carrier
  | S O => hello
  | _ => sent
  end.

Definition world (buffer : list ReactionModel) (c : Client) : World :=
  {| collection := buffer; heap := models; ext := c |}.

Definition client0 : Client :=
  {| stored := [hello; story; sent]; threads := []; jobsAhead := []; diskFull := false |}.

(** A client that has not received anything yet. *)
Definition emptyClient : Client :=
  {| stored := []; threads := []; jobsAhead := []; diskFull := false |}.

(** A job queued before ours deletes [hello]. *)
Definition vanishing : Client :=
  {| stored := [hello; story; sent]; threads := []; jobsAhead := ["m-hello"];
     diskFull := false |}.

(** The store rejects writes. *)
Definition fullDisk : Client :=
  {| stored := [hello; story; sent]; threads := []; jobsAhead := []; diskFull := true |}.

Definition storedMessage (id : string) (c : Client) : option MessageAttributesType :=
  find (fun m => String.eqb (msg_id m) id) (stored c).

End Scenario.

(* ----------------------------------------------------------------- *)
(** *** Removing models from a collection *)

Lemma cid_injective models a b :
  distinct_models models -> In a models -> In b models -> cid a = cid b -> a = b.
Proof.
  unfold distinct_models. induction models as [|x rest IH]; simpl; [tauto|].
  intros Hnd Ha Hb Hcid. inversion Hnd as [|? ? Hx Hrest]; subst.
  destruct Ha as [->|Ha], Hb as [->|Hb]; auto.
  - exfalso. apply Hx. rewrite Hcid. now apply in_map.
  - exfalso. apply Hx. rewrite <- Hcid. now apply in_map.
Qed.

Lemma distinct_filter p models :
  distinct_models models -> distinct_models (filter p models).
Proof.
  unfold distinct_models. induction models as [|x rest IH]; simpl; [auto|].
  intros Hnd. inversion Hnd as [|? ? Hx Hrest]; subst.
  destruct (p x); simpl; [|auto].
  constructor; [|auto].
  intros Hin. apply Hx. apply in_map_iff in Hin.
  destruct Hin as [y [Hy Hin]]. apply filter_In in Hin.
  rewrite <- Hy. apply in_map. tauto.
Qed.

Lemma remove_model_filter m models :
  distinct_models models ->
  remove_model m models = filter (fun x => negb (same_model x m)) models.
Proof.
  unfold distinct_models. induction models as [|x rest IH]; simpl; [auto|].
  intros Hnd. inversion Hnd as [|? ? Hx Hrest]; subst.
  destruct (same_model x m) eqn:E; simpl.
  - unfold same_model in E. apply Nat.eqb_eq in E.
    symmetry. clear IH Hnd Hrest.
    induction rest as [|y rest IH]; simpl; [reflexivity|].
    destruct (same_model y m) eqn:E'; simpl.
    + exfalso. apply Hx. left. unfold same_model in E'.
      apply Nat.eqb_eq in E'. congruence.
    + f_equal. apply IH. intros Hin. apply Hx. now right.
  - f_equal. auto.
Qed.

Lemma Collection_remove_filter toRemove models :
  distinct_models models ->
  Collection_remove toRemove models
  = filter (fun x => negb (existsb (same_model x) toRemove)) models.
Proof.
  unfold Collection_remove. revert models.
  induction toRemove as [|m rest IH]; intros models Hnd; simpl.
  - induction models as [|x xs IHx]; simpl; [reflexivity|].
    f_equal. apply IHx. inversion Hnd; assumption.
  - rewrite remove_model_filter by assumption.
    rewrite IH by (apply distinct_filter; assumption).
    clear. induction models as [|x xs IHx]; simpl; [reflexivity|].
    destruct (same_model x m); simpl; rewrite IHx; reflexivity.
Qed.

(** Removing what a filter selected leaves what it rejected. *)
Lemma Collection_remove_selected p models :
  distinct_models models ->
  Collection_remove (filter p models) models = filter (fun x => negb (p x)) models.
Proof.
  intros Hnd. rewrite Collection_remove_filter by assumption.
  apply filter_ext_in. intros x Hx. f_equal.
  destruct (p x) eqn:Px.
  - apply existsb_exists. exists x. split.
    + apply filter_In. tauto.
    + unfold same_model. apply Nat.eqb_refl.
  - apply not_true_is_false. intros H. apply existsb_exists in H.
    destruct H as [y [Hy Hsame]]. apply filter_In in Hy. destruct Hy as [Hy Py].
    unfold same_model in Hsame. apply Nat.eqb_eq in Hsame.
    assert (x = y) by (eapply cid_injective; eauto). congruence.
Qed.


Lemma filter_none_id {A} (p : A -> bool) l :
  filter p l = [] -> filter (fun x => negb (p x)) l = l.
Proof.
  induction l as [|x xs IH]; simpl; [reflexivity|].
  destruct (p x); simpl; [discriminate|]. intros H. f_equal. auto.
Qed.

(* ----------------------------------------------------------------- *)
(** *** Properties of the methods *)

Section Facts.

Context {X : Type} {collab : Collaborators X}.

Local Abbreviation World := (@World X).
Local Abbreviation M := (@M X).

Lemma filterM_pure (pred : ReactionModel -> M bool) (q : ReactionModel -> bool)
      (evs : ReactionModel -> list Event) models (w : World) :
  (forall x w', pred x w' = (Ok (q x), w', evs x)) ->
  filterM pred models w = (Ok (filter q models), w, flat_map evs models).
Proof.
  intros Hpred. induction models as [|x rest IH]; simpl; [reflexivity|].
  unfold bind. rewrite Hpred, IH. unfold ret.
  rewrite app_nil_r. destruct (q x); reflexivity.
Qed.

Lemma length_positive {A} (l : list A) :
  (0 <? Z.of_nat (List.length l)) = negb (match l with [] => true | _ => false end).
Proof. destruct l; simpl; [reflexivity|]. apply Z.ltb_lt. lia. Qed.

(** Timestamp-only match of the outgoing path. *)
Definition sameTimestamp (msg : MessageAttributesType) (re : ReactionModel) : bool :=
  targetTimestamp (attributes re) =? sent_at msg.

(** Author-and-timestamp match of the general path. *)
Definition sameAuthorAndTimestamp (msg : MessageAttributesType) (re : ReactionModel)
  : bool :=
  optstr_eqb (option_map conv_id (lookupOrCreate (targetAuthorUuid (attributes re))))
             (getContactId msg)
  && (targetTimestamp (attributes re) =? sent_at msg).

Lemma outgoing_filter msg (w : World) :
  this_filter (fun item => ret (targetTimestamp (attributes item) =? sent_at msg)) w
  = (Ok (filter (sameTimestamp msg) (collection w)), w, []).
Proof.
  unfold this_filter.
  rewrite (filterM_pure _ (sameTimestamp msg) (fun _ => [])) by reflexivity.
  f_equal. induction (collection w); simpl; auto.
Qed.

Definition forMessageLookup (re : ReactionModel) : list Event :=
  [EvLookupOrCreate (targetAuthorUuid (attributes re)) "Reactions.forMessage"].

Lemma bySource_filter msg (w : World) :
  this_filter (fun re =>
    targetSender <-
      call_lookupOrCreate (targetAuthorUuid (attributes re)) "Reactions.forMessage" ;;
    ret (optstr_eqb (option_map conv_id targetSender) (getContactId msg)
         && (targetTimestamp (attributes re) =? sent_at msg))) w
  = (Ok (filter (sameAuthorAndTimestamp msg) (collection w)), w,
     flat_map forMessageLookup (collection w)).
Proof.
  unfold this_filter.
  apply (filterM_pure _ (sameAuthorAndTimestamp msg) forMessageLookup).
  reflexivity.
Qed.

(** The general path of [forMessage], from any world. *)
Lemma forMessage_bySource_run message (w : World) :
  isOutgoing (heap w message) = false
  \/ filter (sameTimestamp (heap w message)) (collection w) = [] ->
  forMessage message w
  = let claimed := filter (sameAuthorAndTimestamp (heap w message)) (collection w) in
    match claimed with
    | [] => (Ok [], w, flat_map forMessageLookup (collection w))
    | _ :: _ =>
        (Ok claimed, with_collection (Collection_remove claimed (collection w)) w,
         flat_map forMessageLookup (collection w)
         ++ [EvLogInfo "Found early reaction for message" []])
    end.
Proof.
  intros Hpath. unfold forMessage, bind at 1, get_attributes.
  assert (Hrest :
    (reactionsBySource <-
       this_filter (fun re =>
         targetSender <-
           call_lookupOrCreate (targetAuthorUuid (attributes re)) "Reactions.forMessage" ;;
         ret (optstr_eqb (option_map conv_id targetSender) (getContactId (heap w message))
              && (targetTimestamp (attributes re) =? sent_at (heap w message)))) ;;
     if (0 <? Z.of_nat (List.length reactionsBySource)) then
       log_info "Found early reaction for message" [] ;;;
       this_remove reactionsBySource ;;;
       ret reactionsBySource
     else ret []) w
    = match filter (sameAuthorAndTimestamp (heap w message)) (collection w) with
      | [] => (Ok [], w, flat_map forMessageLookup (collection w))
      | _ :: _ =>
          (Ok (filter (sameAuthorAndTimestamp (heap w message)) (collection w)),
           with_collection
             (Collection_remove
                (filter (sameAuthorAndTimestamp (heap w message)) (collection w))
                (collection w)) w,
           flat_map forMessageLookup (collection w)
           ++ [EvLogInfo "Found early reaction for message" []])
      end).
  { unfold bind at 1. rewrite bySource_filter. rewrite length_positive.
    destruct (filter (sameAuthorAndTimestamp (heap w message)) (collection w));
      simpl; [now rewrite app_nil_r | reflexivity]. }
  simpl. destruct (isOutgoing (heap w message)) eqn:Hout.
  - destruct Hpath as [Hpath|Hpath]; [discriminate|].
    unfold bind at 1. rewrite outgoing_filter, Hpath. simpl.
    rewrite Hrest.
    destruct (filter (sameAuthorAndTimestamp (heap w message)) (collection w));
      reflexivity.
  - rewrite Hrest.
    destruct (filter (sameAuthorAndTimestamp (heap w message)) (collection w));
      reflexivity.
Qed.

(** The outgoing short-circuit of [forMessage]. *)
Lemma forMessage_outgoing_run message (w : World) :
  isOutgoing (heap w message) = true ->
  filter (sameTimestamp (heap w message)) (collection w) <> [] ->
  forMessage message w
  = let claimed := filter (sameTimestamp (heap w message)) (collection w) in
    (Ok claimed, with_collection (Collection_remove claimed (collection w)) w,
     [EvLogInfo "Found early reaction for outgoing message" []]).
Proof.
  intros Hout Hsel.
  unfold forMessage, bind at 1, get_attributes. simpl. rewrite Hout.
  unfold bind at 1. rewrite outgoing_filter, length_positive.
  destruct (filter (sameTimestamp (heap w message)) (collection w));
    [congruence | reflexivity].
Qed.

(** C2. For an outgoing message with at least one buffered reaction whose
    target timestamp is the message's [sent_at], [forMessage] returns exactly
    the reactions with that timestamp and removes them from the collection;
    the only event of the call is the log line, so [lookupOrCreate] is never
    invoked and no target author is resolved. *)
Theorem forMessage_outgoing_match (message : MessageModel) (w : World) :
  distinct_models (collection w) ->
  isOutgoing (heap w message) = true ->
  (exists re, In re (collection w)
              /\ targetTimestamp (attributes re) = sent_at (heap w message)) ->
  let r := forMessage message w in
  outcome r = Ok (filter (sameTimestamp (heap w message)) (collection w))
  /\ collection (final r)
     = filter (fun re => negb (sameTimestamp (heap w message) re)) (collection w)
  /\ heap (final r) = heap w
  /\ ext (final r) = ext w
  /\ events r = [EvLogInfo "Found early reaction for outgoing message" []]
  /\ calls isLookupOrCreate (events r) = 0%nat.
Proof.
  intros Hnd Hout [re [Hin Hts]] r. subst r.
  rewrite forMessage_outgoing_run; [|assumption|].
  - cbv zeta. unfold outcome, final, events. cbn -[Collection_remove].
    rewrite Collection_remove_selected by assumption.
    repeat split; reflexivity.
  - intros Hsel.
    assert (Hre : In re (filter (sameTimestamp (heap w message)) (collection w))).
    { apply filter_In. split; [assumption|].
      unfold sameTimestamp. now apply Z.eqb_eq. }
    rewrite Hsel in Hre. destruct Hre.
Qed.

(** C3. On the path that is not the outgoing short-circuit (the message is not
    outgoing, or no buffered reaction has its timestamp), [forMessage] returns
    exactly the buffered reactions whose target author resolves to the contact
    id of the message's sender and whose target timestamp is its [sent_at],
    and the collection it leaves holds exactly the others; when none matches
    it returns the empty array and the collection is as it was. *)
Theorem forMessage_by_source (message : MessageModel) (w : World) :
  distinct_models (collection w) ->
  isOutgoing (heap w message) = false
  \/ filter (sameTimestamp (heap w message)) (collection w) = [] ->
  let r := forMessage message w in
  let claimed := filter (sameAuthorAndTimestamp (heap w message)) (collection w) in
  outcome r = Ok claimed
  /\ collection (final r)
     = filter (fun re => negb (sameAuthorAndTimestamp (heap w message) re))
              (collection w)
  /\ (claimed = [] -> outcome r = Ok [] /\ collection (final r) = collection w)
  /\ heap (final r) = heap w
  /\ ext (final r) = ext w.
Proof.
  intros Hnd Hpath r claimed. subst r claimed.
  rewrite (forMessage_bySource_run message w Hpath). cbv zeta.
  pose proof (Collection_remove_selected
                (sameAuthorAndTimestamp (heap w message)) _ Hnd) as Hrem.
  destruct (filter (sameAuthorAndTimestamp (heap w message)) (collection w))
    as [|first others] eqn:Hsel.
  - cbn. rewrite (filter_none_id _ _ Hsel). repeat split; reflexivity.
  - cbn -[Collection_remove]. rewrite Hrem.
    repeat split; try reflexivity; try discriminate.
Qed.

(* ----------------------------------------------------------------- *)
(** *** Reasoning about runs *)

(** [post m w Q]: the run of [m] from [w] ends in an outcome, a world and
    events that satisfy [Q]. *)
Definition post {A} (m : M A) (w : World)
           (Q : Outcome A -> World -> list Event -> Prop) : Prop :=
  Q (outcome (m w)) (final (m w)) (events (m w)).

Lemma post_ret {A} (a : A) w Q : Q (Ok a) w [] -> post (ret a) w Q.
Proof. exact (fun H => H). Qed.

Lemma post_throw {A} e w (Q : Outcome A -> World -> list Event -> Prop) :
  Q (Throw e) w [] -> post (throw e) w Q.
Proof. exact (fun H => H). Qed.

Lemma post_emit e w Q : Q (Ok tt) w [e] -> post (emit e) w Q.
Proof. exact (fun H => H). Qed.

Lemma post_call {A} e (f : X -> Outcome A * X) w Q :
  (forall o x, f (ext w) = (o, x) -> Q o (with_ext x w) [e]) ->
  post (call e f) w Q.
Proof.
  intros H. unfold post, call. destruct (f (ext w)) as [o x] eqn:E.
  apply (H o x eq_refl).
Qed.

Lemma post_bind {A B} (m : M A) (k : A -> M B) w Q :
  post m w (fun o w1 ev1 =>
    match o with
    | Ok a => post (k a) w1 (fun o2 w2 ev2 => Q o2 w2 (ev1 ++ ev2))
    | Throw e => Q (Throw e) w1 ev1
    end) ->
  post (bind m k) w Q.
Proof.
  unfold post, bind, outcome, final, events.
  destruct (m w) as [[[a|e] w1] ev1]; simpl; [|auto].
  destruct (k a w1) as [[o2 w2] ev2]; simpl. auto.
Qed.

Lemma post_tryCatch {A} (body : M A) handler w Q :
  post body w (fun o w1 ev1 =>
    match o with
    | Ok a => Q (Ok a) w1 ev1
    | Throw e => post (handler e) w1 (fun o2 w2 ev2 => Q o2 w2 (ev1 ++ ev2))
    end) ->
  post (tryCatch body handler) w Q.
Proof.
  unfold post, tryCatch, outcome, final, events.
  destruct (body w) as [[[a|e] w1] ev1]; simpl; [auto|].
  destruct (handler e w1) as [[o2 w2] ev2]; simpl. auto.
Qed.

Lemma post_call_on {A} e m
      (f : MessageAttributesType -> X -> Outcome A * MessageAttributesType * X) w Q :
  (forall o a x,
      f (heap w m) (ext w) = (o, a, x) ->
      Q o (with_heap (fun r => if Nat.eqb r m then a else heap w r) (with_ext x w))
        [e]) ->
  post (call_on e m f) w Q.
Proof.
  intros H. unfold post, call_on.
  destruct (f (heap w m) (ext w)) as [[o a] x] eqn:E.
  apply (H o a x eq_refl).
Qed.

Lemma post_all2 (a b : M unit) w Q :
  post a w (fun oa w1 ev1 =>
    post b w1 (fun ob w2 ev2 =>
      Q (match oa with
         | Ok _ => ob
         | Throw ea =>
             match ob with
             | Ok _ => Throw ea
             | Throw eb =>
                 if secondSettlesFirst (ext w2) then Throw eb else Throw ea
             end
         end) w2 (ev1 ++ ev2))) ->
  post (Promise_all2 a b) w Q.
Proof.
  unfold post, Promise_all2, outcome, final, events.
  destruct (a w) as [[oa w1] ev1]; simpl.
  destruct (b w1) as [[ob w2] ev2]; simpl. auto.
Qed.

Lemma post_findMessage ts cid w Q :
  (forall o x, getMessagesBySentAt ts (ext w) = (o, x) ->
     Q (match o with
        | Ok messages => Ok (find (sentBy cid) messages)
        | Throw e => Throw e
        end) (with_ext x w) [EvGetMessagesBySentAt ts o]) ->
  post (findMessage ts cid) w Q.
Proof.
  intros H. unfold post, findMessage.
  destruct (getMessagesBySentAt ts (ext w)) as [[messages|e] x] eqn:E;
    apply (H _ x eq_refl).
Qed.

Lemma post_getCheckedUuid w Q :
  Q (getCheckedUuid (ext w)) w [] -> post call_getCheckedUuid w Q.
Proof. exact (fun H => H). Qed.

Lemma post_get_attributes m w Q :
  Q (Ok (heap w m)) w [] -> post (get_attributes m) w Q.
Proof. exact (fun H => H). Qed.

Lemma post_set_attributes m f w Q :
  Q (Ok tt) (with_heap (fun r => if Nat.eqb r m then f (heap w r) else heap w r) w) []
  -> post (set_attributes m f) w Q.
Proof. exact (fun H => H). Qed.

Lemma post_this_remove toRemove w Q :
  Q (Ok tt) (with_collection (Collection_remove toRemove (collection w)) w) []
  -> post (this_remove toRemove) w Q.
Proof. exact (fun H => H). Qed.

Ltac wp_step :=
  lazymatch goal with
  | |- post (bind _ _) _ _ => apply post_bind
  | |- post (ret _) _ _ => apply post_ret
  | |- post (throw _) _ _ => apply post_throw
  | |- post (emit _) _ _ => apply post_emit
  | |- post (log_info _ _) _ _ => apply post_emit
  | |- post (log_error _ _) _ _ => apply post_emit
  | |- post (call _ _) _ _ =>
      let E := fresh "Hcall" in apply post_call; intros [?|?] ? E
  | |- post (call_on _ _ _) _ _ =>
      let E := fresh "Hmethod" in apply post_call_on; intros [?|?] ? ? E
  | |- post (findMessage _ _) _ _ =>
      let E := fresh "Hstore" in apply post_findMessage; intros [?|?] ? E
  | |- post call_getCheckedUuid _ _ => apply post_getCheckedUuid
  | |- post (get_attributes _) _ _ => apply post_get_attributes
  | |- post (set_attributes _ _) _ _ => apply post_set_attributes
  | |- post (this_remove _) _ _ => apply post_this_remove
  | |- post (tryCatch _ _) _ _ => apply post_tryCatch
  | |- post (Promise_all2 _ _) _ _ => apply post_all2
  | |- post (call_lookupOrCreate _ _) _ _ => unfold call_lookupOrCreate
  | |- post (call_ConversationController_get _) _ _ =>
      unfold call_ConversationController_get
  | |- post (register _ _) _ _ => unfold register
  | |- post (queueJob _ _ _) _ _ => unfold queueJob
  | |- post (applyJob _ _ _ _) _ _ => unfold applyJob
  | |- post (addReactionToStory _ _ _ _ _) _ _ => unfold addReactionToStory
  | |- post (onReaction_try _ _) _ _ => unfold onReaction_try
  | |- post (onReaction _ _) _ _ => unfold onReaction
  | |- post (match ?x with _ => _ end) _ _ => destruct x eqn:?
  | |- match (if ?c then _ else _) with _ => _ end => destruct c eqn:?
  | |- match ?x with _ => _ end => destruct x eqn:?
  end.

Ltac wp := repeat (wp_step; cbv beta iota).

(** At the end of a path: compute the events and the world. *)
Ltac leaf :=
  cbn -[Collection_remove truthy withStoryReaction] in *;
  rewrite ?Nat.eqb_refl in *.

Ltac same_option :=
  repeat match goal with
         | H : Some _ = Some _ |- _ => injection H as H; try subst
         end.

Lemma post_run {A} (m : M A) w (Q : Outcome A -> World -> list Event -> Prop) :
  post m w Q -> Q (outcome (m w)) (final (m w)) (events (m w)).
Proof. exact (fun H => H). Qed.

(** *** [onReaction] *)

Lemma onReaction_resolves R G (w : World) : outcome (onReaction R G w) = Ok tt.
Proof.
  unfold onReaction, tryCatch, outcome, log_error, emit.
  destruct (onReaction_try R G w) as [[[[]|e] w1] ev1]; reflexivity.
Qed.



Ltac unfold_run :=
  unfold onReaction, onReaction_try, applyJob, queueJob, findMessage, tryCatch,
    bind, call, call_lookupOrCreate, call_ConversationController_get, register,
    log_info, log_error, emit, ret, throw, get_attributes, this_remove.

(** C6. When the identity directory yields no conversation id for the
    reaction's target author, [onReaction] resolves normally; its only calls are
    the look-up itself and one [log.error] with the failure, so no message is
    looked up, no job is queued and no message is touched; the world is left
    exactly as it was. *)
Theorem onReaction_unresolvable_author R G (w : World) :
  truthy (option_map conv_id (lookupOrCreate (targetAuthorUuid (attributes R))))
  = None ->
  onReaction R G w
  = (Ok tt, w,
     [EvLookupOrCreate (targetAuthorUuid (attributes R)) "Reactions.onReaction";
      EvLogError "Reactions.onReaction error:"
        (toLogFormat "onReaction: No conversationId returned from lookupOrCreate!")]).
Proof.
  intros Hnone. unfold_run. cbn. rewrite Hnone. reflexivity.
Qed.

(** C7. When the initial look-up finds no stored message of the resolved
    author at the reaction's target timestamp, [onReaction] logs
    'No message for reaction' and resolves: no job is queued, no message is
    mutated, and the collection and the caller's models are as before, so a
    reaction that was in the collection is still there. *)
Theorem onReaction_no_message R G (w : World) cid messages x :
  truthy (option_map conv_id (lookupOrCreate (targetAuthorUuid (attributes R))))
  = Some cid ->
  getMessagesBySentAt (targetTimestamp (attributes R)) (ext w) = (Ok messages, x) ->
  find (sentBy cid) messages = None ->
  let r := onReaction R G w in
  r = (Ok tt, with_ext x w,
       [EvLookupOrCreate (targetAuthorUuid (attributes R)) "Reactions.onReaction";
        EvConversationGet (conversationId (heap w G));
        EvGetMessagesBySentAt (targetTimestamp (attributes R)) (Ok messages);
        EvLogInfo "No message for reaction" (reactionLogArgs R)])
  /\ calls isQueueJob (events r) = 0%nat
  /\ calls isMutation (events r) = 0%nat
  /\ collection (final r) = collection w
  /\ heap (final r) = heap w
  /\ (In R (collection w) -> In R (collection (final r))).
Proof.
  intros Hcid Hget Hfind r.
  assert (Hrun : r = (Ok tt, with_ext x w,
       [EvLookupOrCreate (targetAuthorUuid (attributes R)) "Reactions.onReaction";
        EvConversationGet (conversationId (heap w G));
        EvGetMessagesBySentAt (targetTimestamp (attributes R)) (Ok messages);
        EvLogInfo "No message for reaction" (reactionLogArgs R)])).
  { subst r. unfold_run. cbn. rewrite Hcid. cbn. rewrite Hget, Hfind. reflexivity. }
  rewrite Hrun. repeat split; auto.
Qed.

Lemma storyInDirectConversation_spec fromConversation m :
  storyInDirectConversation fromConversation m = true
  <-> exists fc, fromConversation = Some fc
                 /\ isStory m = true
                 /\ isDirectConversation (conv_attributes fc) = true
                 /\ isMe (conv_attributes fc) = false.
Proof.
  unfold storyInDirectConversation. split.
  - destruct fromConversation as [fc|]; [|discriminate].
    intros H. apply andb_true_iff in H. destruct H as [H Hme].
    apply andb_true_iff in H. destruct H as [Hstory Hdirect].
    exists fc. repeat split; auto. now apply negb_true_iff.
  - intros [fc [-> [-> [-> ->]]]]. reflexivity.
Qed.

(** Facts the path to the first look-up fixes. *)
Ltac initial_lookup Hcid Hget Hfind :=
  rewrite ?Hcid in *; same_option;
  repeat match goal with
         | Hs : getMessagesBySentAt _ (ext ?w) = _ |- _ =>
             rewrite Hget in Hs; inversion Hs; subst; clear Hs
         end;
  rewrite ?Hfind in *; same_option.

Section TargetConversation.

Variables (R : ReactionModel) (G : MessageModel) (w : World).
Variables (cid : string) (messages : list MessageAttributesType) (x : X)
          (m : MessageAttributesType).

Hypothesis Hcid :
  truthy (option_map conv_id (lookupOrCreate (targetAuthorUuid (attributes R))))
  = Some cid.
Hypothesis Hget :
  getMessagesBySentAt (targetTimestamp (attributes R)) (ext w) = (Ok messages, x).
Hypothesis Hfind : find (sentBy cid) messages = Some m.

Let fromConversation := ConversationController_get (conversationId (heap w G)).
Let r := onReaction R G w.

Lemma onReaction_story_target fc :
  fromConversation = Some fc ->
  storyInDirectConversation fromConversation m = true ->
  queuedOn (events r) = [(fc, "Reactions.onReaction")]
  /\ calls isGetConversationForTargetMessage (events r) = 0%nat.
Proof.
  intros Hfrom Hstory. subst r fromConversation.
  apply (post_run (onReaction R G) w
           (fun _ _ ev =>
              queuedOn ev = [(fc, "Reactions.onReaction")]
              /\ calls isGetConversationForTargetMessage ev = 0%nat)).
  wp.
  all: initial_lookup Hcid Hget Hfind; try congruence.
  all: leaf; split; congruence.
Qed.

Lemma onReaction_author_target :
  storyInDirectConversation fromConversation m = false ->
  In (EvGetConversationForTargetMessage cid (targetTimestamp (attributes R)))
     (events r)
  /\ match getConversationForTargetMessage cid (targetTimestamp (attributes R)) x with
     | (Ok (Some c), _) => queuedOn (events r) = [(c, "Reactions.onReaction")]
     | (Ok None, x') =>
         outcome r = Ok tt
         /\ final r = with_ext x' w
         /\ events r
            = [EvLookupOrCreate (targetAuthorUuid (attributes R)) "Reactions.onReaction";
               EvConversationGet (conversationId (heap w G));
               EvGetMessagesBySentAt (targetTimestamp (attributes R)) (Ok messages);
               EvGetConversationForTargetMessage cid (targetTimestamp (attributes R));
               EvLogInfo "No target conversation for reaction" (reactionLogArgs R)]
     | (Throw _, _) => queuedOn (events r) = []
     end.
Proof.
  intros Hstory. subst r fromConversation.
  apply (post_run (onReaction R G) w
           (fun o w' ev =>
              In (EvGetConversationForTargetMessage cid (targetTimestamp (attributes R))) ev
              /\ match getConversationForTargetMessage
                         cid (targetTimestamp (attributes R)) x with
                 | (Ok (Some c), _) => queuedOn ev = [(c, "Reactions.onReaction")]
                 | (Ok None, x') =>
                     o = Ok tt
                     /\ w' = with_ext x' w
                     /\ ev
                        = [EvLookupOrCreate (targetAuthorUuid (attributes R))
                                            "Reactions.onReaction";
                           EvConversationGet (conversationId (heap w G));
                           EvGetMessagesBySentAt (targetTimestamp (attributes R))
                                                 (Ok messages);
                           EvGetConversationForTargetMessage
                             cid (targetTimestamp (attributes R));
                           EvLogInfo "No target conversation for reaction"
                                     (reactionLogArgs R)]
                 | (Throw _, _) => queuedOn ev = []
                 end)).
  wp.
  all: initial_lookup Hcid Hget Hfind; try congruence.
  all: leaf.
  all: match goal with
       | H : getConversationForTargetMessage _ _ _ = _ |- _ => rewrite H
       end.
  all: split; [auto 10 | repeat split; reflexivity].
Qed.

End TargetConversation.

(** C4. Once the initial look-up has found a candidate [m]: when the
    reaction's sending conversation exists, [m] is a story, the conversation
    is direct and is not our own, the job is queued on that sending
    conversation and [getConversationForTargetMessage] is not called; in every
    other case [getConversationForTargetMessage] is called with the author's
    conversation id and the target timestamp and its answer decides: the job
    is queued on the conversation it yields, and when it yields none the
    reaction is dropped with the log line 'No target conversation for
    reaction' and nothing is queued. *)
Theorem onReaction_target_conversation R G (w : World) cid messages x m :
  truthy (option_map conv_id (lookupOrCreate (targetAuthorUuid (attributes R))))
  = Some cid ->
  getMessagesBySentAt (targetTimestamp (attributes R)) (ext w) = (Ok messages, x) ->
  find (sentBy cid) messages = Some m ->
  let r := onReaction R G w in
  let fromConversation := ConversationController_get (conversationId (heap w G)) in
  let ts := targetTimestamp (attributes R) in
  (forall fc,
      fromConversation = Some fc ->
      isStory m = true ->
      isDirectConversation (conv_attributes fc) = true ->
      isMe (conv_attributes fc) = false ->
      queuedOn (events r) = [(fc, "Reactions.onReaction")]
      /\ calls isGetConversationForTargetMessage (events r) = 0%nat)
  /\ (~ (exists fc, fromConversation = Some fc
                    /\ isStory m = true
                    /\ isDirectConversation (conv_attributes fc) = true
                    /\ isMe (conv_attributes fc) = false) ->
      In (EvGetConversationForTargetMessage cid ts) (events r)
      /\ match getConversationForTargetMessage cid ts x with
         | (Ok (Some c), _) => queuedOn (events r) = [(c, "Reactions.onReaction")]
         | (Ok None, x') =>
             outcome r = Ok tt
             /\ final r = with_ext x' w
             /\ events r
                = [EvLookupOrCreate (targetAuthorUuid (attributes R))
                                    "Reactions.onReaction";
                   EvConversationGet (conversationId (heap w G));
                   EvGetMessagesBySentAt ts (Ok messages);
                   EvGetConversationForTargetMessage cid ts;
                   EvLogInfo "No target conversation for reaction" (reactionLogArgs R)]
         | (Throw _, _) => queuedOn (events r) = []
         end).
Proof.
  intros Hcid Hget Hfind r fromConversation ts. split.
  - intros fc Hfrom Hstory Hdirect Hme.
    apply (onReaction_story_target R G w cid messages x m Hcid Hget Hfind fc Hfrom).
    apply storyInDirectConversation_spec. exists fc. auto.
  - intros Hnot.
    apply (onReaction_author_target R G w cid messages x m Hcid Hget Hfind).
    destruct (storyInDirectConversation
                (ConversationController_get (conversationId (heap w G))) m) eqn:E;
      [|reflexivity].
    exfalso. apply Hnot. now apply storyInDirectConversation_spec.
Qed.

(** *** The apply step *)

(** The story branch of the apply step, for any collaborators: when the
    re-fetched target is a story and the step returns, it has started the save
    of the generated message's attributes with [storyId] and [storyReaction]
    set, with [forceSave], then registered the generated message and added it
    to the target conversation, and last called [handleReaction] on the
    story's model. *)
Lemma applyJob_story_run R G c cid (w : World) messages x m :
  getMessagesBySentAt (targetTimestamp (attributes R)) (ext w) = (Ok messages, x) ->
  find (sentBy cid) messages = Some m ->
  isStory m = true ->
  outcome (applyJob R G (Some c) cid w) = Ok tt ->
  let j := applyJob R G (Some c) cid w in
  let placeholder := withStoryReaction R c m (heap w G) in
  let storyModel := {| reg_id := msg_id m; reg_data := m |} in
  exists ourUuid x1 generated x2 x3 x4,
    getCheckedUuid x = Ok ourUuid
    /\ saveMessage placeholder ourUuid true x = (Ok tt, x1)
    /\ hydrateStoryContext placeholder storyModel x1 = (Ok tt, generated, x2)
    /\ addSingleMessage c {| reg_id := msg_id generated; reg_data := generated |} x2
       = (Ok tt, x3)
    /\ handleReaction storyModel R x3 = (Ok tt, x4)
    /\ ext (final j) = x4
    /\ heap (final j) G = generated
    /\ collection (final j) = Collection_remove [R] (collection w)
    /\ events j
       = [EvLogInfo "Handling reaction for" [LNum (targetTimestamp (attributes R))];
          EvGetMessagesBySentAt (targetTimestamp (attributes R)) (Ok messages);
          EvRegister (msg_id m);
          EvSaveMessage placeholder ourUuid true;
          EvHydrateStoryContext G storyModel;
          EvLogInfo "Reactions.onReaction adding reaction to story"
            [LFieldStr "reactionMessageId" (getMessageIdForLogging generated);
             LFieldStr "storyId" (getMessageIdForLogging m);
             LFieldNum "targetTimestamp" (targetTimestamp (attributes R));
             LFieldNum "timestamp" (timestamp (attributes R))];
          EvRegister (msg_id generated);
          EvAddSingleMessage c {| reg_id := msg_id generated; reg_data := generated |};
          EvHandleReaction storyModel R].
Proof.
  intros Hget Hfind Hstory Hok j placeholder storyModel.
  subst j placeholder storyModel. revert Hok.
  apply (post_run (applyJob R G (Some c) cid) w
           (fun o w' ev =>
              o = Ok tt ->
              exists ourUuid x1 generated x2 x3 x4,
                getCheckedUuid x = Ok ourUuid
                /\ saveMessage (withStoryReaction R c m (heap w G)) ourUuid true x
                   = (Ok tt, x1)
                /\ hydrateStoryContext (withStoryReaction R c m (heap w G))
                                       {| reg_id := msg_id m; reg_data := m |} x1
                   = (Ok tt, generated, x2)
                /\ addSingleMessage
                     c {| reg_id := msg_id generated; reg_data := generated |} x2
                   = (Ok tt, x3)
                /\ handleReaction {| reg_id := msg_id m; reg_data := m |} R x3
                   = (Ok tt, x4)
                /\ ext w' = x4
                /\ heap w' G = generated
                /\ collection w' = Collection_remove [R] (collection w)
                /\ ev = _)).
  wp.
  all: repeat match goal with
         | Hs : getMessagesBySentAt _ (ext ?w0) = _ |- _ =>
             rewrite Hget in Hs; inversion Hs; subst; clear Hs
         end.
  all: rewrite ?Hfind in *; same_option; try congruence.
  all: leaf; intros; try discriminate.
  repeat match goal with u : unit |- _ => destruct u end.
  do 6 eexists. repeat split; try eassumption; reflexivity.
Qed.

Lemma applyJob_throw_keeps_collection R G tc cid (w : World) e :
  outcome (applyJob R G tc cid w) = Throw e ->
  collection (final (applyJob R G tc cid w)) = collection w.
Proof.
  apply (post_run (applyJob R G tc cid) w
           (fun o w' _ => o = Throw e -> collection w' = collection w)).
  wp. all: leaf; intros; try discriminate; reflexivity.
Qed.

(** The events of [onReaction] up to the start of the queued job. *)
Definition eventsBeforeJob (reaction : ReactionModel) (generatedMessage : MessageModel)
           (w : World) (messages : list MessageAttributesType)
           (resolution : list Event) (c : ConversationModel) : list Event :=
  [EvLookupOrCreate (targetAuthorUuid (attributes reaction)) "Reactions.onReaction";
   EvConversationGet (conversationId (heap w generatedMessage));
   EvGetMessagesBySentAt (targetTimestamp (attributes reaction)) (Ok messages)]
  ++ resolution ++ [EvQueueJob c "Reactions.onReaction"].

(** When the author resolves, the target message is found, a target
    conversation [c] is resolved and the job gets its turn, the [try] block
    ends as the apply step does, on the world the turn left. *)
Lemma onReaction_try_reaches_job R G (w : World) cid messages x m c x2 resolution x3 :
  truthy (option_map conv_id (lookupOrCreate (targetAuthorUuid (attributes R))))
  = Some cid ->
  getMessagesBySentAt (targetTimestamp (attributes R)) (ext w) = (Ok messages, x) ->
  find (sentBy cid) messages = Some m ->
  (storyInDirectConversation
     (ConversationController_get (conversationId (heap w G))) m = true
   /\ ConversationController_get (conversationId (heap w G)) = Some c
   /\ x2 = x /\ resolution = [])
  \/ (storyInDirectConversation
        (ConversationController_get (conversationId (heap w G))) m = false
      /\ getConversationForTargetMessage cid (targetTimestamp (attributes R)) x
         = (Ok (Some c), x2)
      /\ resolution
         = [EvGetConversationForTargetMessage cid (targetTimestamp (attributes R))]) ->
  queueJob_turn c "Reactions.onReaction" x2 = (Ok tt, x3) ->
  let j := applyJob R G (Some c) cid (with_ext x3 w) in
  outcome (onReaction_try R G w) = outcome j
  /\ final (onReaction_try R G w) = final j
  /\ events (onReaction_try R G w) = eventsBeforeJob R G w messages resolution c ++ events j.
Proof.
  intros Hcid Hget Hfind Hresolved Hturn j. subst j.
  unfold onReaction_try, queueJob, call_lookupOrCreate, call_ConversationController_get,
    get_attributes, findMessage, bind, call, emit, ret, eventsBeforeJob.
  cbn -[applyJob truthy storyInDirectConversation].
  rewrite Hcid. cbn -[applyJob truthy storyInDirectConversation].
  rewrite Hget. cbn -[applyJob truthy storyInDirectConversation].
  rewrite Hfind.
  destruct Hresolved as [(Hstory & Hfrom & -> & ->) | (Hstory & Htarget & ->)];
    rewrite Hstory; cbn -[applyJob truthy storyInDirectConversation].
  - rewrite Hfrom. cbn -[applyJob]. rewrite Hturn. cbn -[applyJob].
    change (with_ext x3 (with_ext x w)) with (with_ext x3 w).
    destruct (applyJob R G (Some c) cid (with_ext x3 w)) as [[o wj] evj].
    repeat split.
  - rewrite Htarget. cbn -[applyJob]. rewrite Hturn. cbn -[applyJob].
    change (with_ext x3 (with_ext x2 (with_ext x w))) with (with_ext x3 w).
    destruct (applyJob R G (Some c) cid (with_ext x3 w)) as [[o wj] evj].
    repeat split.
Qed.

(** C8 (as amended). [onReaction] always resolves. Whatever is thrown inside
    its [try] block is caught and logged with [log.error], and a run that
    logged an error leaves the collection as it was. What the apply step
    throws (a rejected store write among them) is what [queueJob] throws, so
    it reaches that [catch]; an apply step that throws removes nothing.
    When the target message is missing at the re-fetch the job returns
    without logging an error and without touching a message, and the
    collection and the caller's models are as before. In no failing case is
    the reaction removed from the collection. An apply step that throws [e]
    inside [onReaction] makes the run end with [log.error] of [e] as its last
    event, right after the events of the apply step, in the world the apply
    step left and with the reaction still in the collection. *)
Theorem onReaction_failure_contained R G (w : World) :
  let r := onReaction R G w in
  outcome r = Ok tt
  /\ (forall e w1 ev1,
        onReaction_try R G w = (Throw e, w1, ev1) ->
        final r = w1
        /\ events r
           = ev1 ++ [EvLogError "Reactions.onReaction error:" (toLogFormat e)])
  /\ (calls isLogError (events r) = 1%nat -> collection (final r) = collection w)
  /\ (forall c name (job : M unit) wq x e,
        queueJob_turn c name (ext wq) = (Ok tt, x) ->
        outcome (job (with_ext x wq)) = Throw e ->
        outcome (queueJob c name job wq) = Throw e)
  /\ (forall tc cid wj e,
        outcome (applyJob R G tc cid wj) = Throw e ->
        collection (final (applyJob R G tc cid wj)) = collection wj)
  /\ (forall cid m1,
        truthy (option_map conv_id (lookupOrCreate (targetAuthorUuid (attributes R))))
        = Some cid ->
        lookupResults cid (events r) = [Some m1; None] ->
        calls isLogError (events r) = 0%nat
        /\ calls isMutation (events r) = 0%nat
        /\ collection (final r) = collection w
        /\ heap (final r) = heap w)
  /\ (forall cid messages x m c x2 resolution x3 e,
        truthy (option_map conv_id (lookupOrCreate (targetAuthorUuid (attributes R))))
        = Some cid ->
        getMessagesBySentAt (targetTimestamp (attributes R)) (ext w) = (Ok messages, x) ->
        find (sentBy cid) messages = Some m ->
        (storyInDirectConversation
           (ConversationController_get (conversationId (heap w G))) m = true
         /\ ConversationController_get (conversationId (heap w G)) = Some c
         /\ x2 = x /\ resolution = [])
        \/ (storyInDirectConversation
              (ConversationController_get (conversationId (heap w G))) m = false
            /\ getConversationForTargetMessage cid (targetTimestamp (attributes R)) x
               = (Ok (Some c), x2)
            /\ resolution
               = [EvGetConversationForTargetMessage
                    cid (targetTimestamp (attributes R))]) ->
        queueJob_turn c "Reactions.onReaction" x2 = (Ok tt, x3) ->
        let j := applyJob R G (Some c) cid (with_ext x3 w) in
        outcome j = Throw e ->
        events r
        = eventsBeforeJob R G w messages resolution c ++ events j
          ++ [EvLogError "Reactions.onReaction error:" (toLogFormat e)]
        /\ final r = final j
        /\ collection (final r) = collection w).
Proof.
  intros r. subst r. split; [apply onReaction_resolves|]. split.
  { intros e w1 ev1 Htry. unfold onReaction, tryCatch, final, events.
    rewrite Htry. simpl. auto. }
  split.
  { apply (post_run (onReaction R G) w
             (fun _ w' ev => calls isLogError ev = 1%nat ->
                             collection w' = collection w)).
    wp. all: leaf; intros; try discriminate; reflexivity. }
  split.
  { intros c name job wq x e Hturn Hjob.
    unfold queueJob, bind, call, outcome. rewrite Hturn.
    unfold outcome in Hjob.
    destruct (job (with_ext x wq)) as [[o w1] ev1]. simpl in *. now subst o. }
  split; [intros; now apply applyJob_throw_keeps_collection with (e := e)|].
  split.
  { intros cid m1 Hcid.
    apply (post_run (onReaction R G) w
             (fun _ w' ev =>
                lookupResults cid ev = [Some m1; None] ->
                calls isLogError ev = 0%nat
                /\ calls isMutation ev = 0%nat
                /\ collection w' = collection w
                /\ heap w' = heap w)).
    wp.
    all: rewrite ?Hcid in *; same_option.
    all: leaf; intros; try discriminate; try congruence.
    all: repeat split; reflexivity. }
  intros cid messages x m c x2 resolution x3 e Hcid Hget Hfind Hresolved Hturn j Hthrow.
  destruct (onReaction_try_reaches_job R G w cid messages x m c x2 resolution x3
              Hcid Hget Hfind Hresolved Hturn) as (Hout & Hfinal & Hevents).
  fold j in Hout, Hfinal, Hevents.
  pose proof (applyJob_throw_keeps_collection R G (Some c) cid (with_ext x3 w) e Hthrow)
    as Hkept.
  fold j in Hkept. rewrite Hthrow in Hout.
  unfold onReaction, tryCatch, log_error, emit.
  destruct (onReaction_try R G w) as [[o w1] ev1].
  unfold outcome, final, events in *. simpl in Hout, Hfinal, Hevents. subst o w1 ev1.
  simpl. rewrite <- app_assoc. repeat split. exact Hkept.
Qed.

(* ----------------------------------------------------------------- *)
(** *** More about [forMessage] *)

(** The test by which [forMessage] claims reactions for a message: the
    timestamp alone when the message is outgoing and some buffered reaction
    has its timestamp, author and timestamp otherwise. *)
Definition claimTest (msg : MessageAttributesType) (models : list ReactionModel)
  : ReactionModel -> bool :=
  if isOutgoing msg
  then match filter (sameTimestamp msg) models with
       | [] => sameAuthorAndTimestamp msg
       | _ :: _ => sameTimestamp msg
       end
  else sameAuthorAndTimestamp msg.

Lemma Collection_remove_nil (models : list ReactionModel) :
  Collection_remove [] models = models.
Proof. reflexivity. Qed.

(** Every call of [forMessage], on either path. *)
Lemma forMessage_run message (w : World) :
  let claimed := filter (claimTest (heap w message) (collection w)) (collection w) in
  outcome (forMessage message w) = Ok claimed
  /\ final (forMessage message w)
     = match claimed with
       | [] => w
       | _ :: _ => with_collection (Collection_remove claimed (collection w)) w
       end.
Proof.
  unfold claimTest.
  destruct (isOutgoing (heap w message)) eqn:Hout.
  - destruct (filter (sameTimestamp (heap w message)) (collection w))
      as [|first others] eqn:Hsel.
    + rewrite forMessage_bySource_run by (right; exact Hsel). cbv zeta.
      destruct (filter (sameAuthorAndTimestamp (heap w message)) (collection w));
        split; reflexivity.
    + rewrite forMessage_outgoing_run by (assumption || congruence). cbv zeta.
      rewrite Hsel. split; reflexivity.
  - rewrite forMessage_bySource_run by (left; exact Hout). cbv zeta.
    destruct (filter (sameAuthorAndTimestamp (heap w message)) (collection w));
      split; reflexivity.
Qed.

Lemma claimTest_timestamp msg models re :
  claimTest msg models re = true -> targetTimestamp (attributes re) = sent_at msg.
Proof.
  unfold claimTest, sameAuthorAndTimestamp, sameTimestamp.
  destruct (isOutgoing msg);
    [destruct (filter _ models)|]; intros H;
    try (apply andb_true_iff in H; destruct H as [_ H]); now apply Z.eqb_eq.
Qed.

(** X1. Whatever [forMessage] returns was buffered and targets the message:
    every returned reaction was in the collection and has its
    [targetTimestamp] equal to the message's [sent_at], on the outgoing path
    and on the general path alike. *)
Theorem forMessage_returns_buffered_matches (message : MessageModel) (w : World)
        (claimed : list ReactionModel) :
  outcome (forMessage message w) = Ok claimed ->
  forall re, In re claimed ->
             In re (collection w)
             /\ targetTimestamp (attributes re) = sent_at (heap w message).
Proof.
  intros Hclaimed re Hin.
  destruct (forMessage_run message w) as [Hout _].
  rewrite Hout in Hclaimed. injection Hclaimed as <-.
  apply filter_In in Hin. destruct Hin as [Hin Htest].
  split; [exact Hin | now apply claimTest_timestamp in Htest].
Qed.

Lemma filter_partition {A} (p : A -> bool) (l : list A) :
  Permutation (filter p l ++ filter (fun x => negb (p x)) l) l.
Proof.
  induction l as [|x rest IH]; simpl; [constructor|].
  destruct (p x); simpl.
  - now constructor.
  - apply Permutation_sym. apply Permutation_cons_app.
    now apply Permutation_sym.
Qed.

Lemma forMessage_remaining message (w : World) :
  distinct_models (collection w) ->
  collection (final (forMessage message w))
  = filter (fun re => negb (claimTest (heap w message) (collection w) re))
           (collection w).
Proof.
  intros Hnd. destruct (forMessage_run message w) as [_ Hfin]. rewrite Hfin.
  pose proof (Collection_remove_selected
                (claimTest (heap w message) (collection w)) _ Hnd) as Hrem.
  destruct (filter (claimTest (heap w message) (collection w)) (collection w))
    as [|first others] eqn:Hsel.
  - symmetry. now apply filter_none_id.
  - cbn -[Collection_remove]. exact Hrem.
Qed.

(** X2. [forMessage] splits the collection: the reactions it returns and
    the reactions it leaves are, together, exactly the reactions that were
    buffered (none lost, none doubled), and the collection it leaves still
    holds no model twice. *)
Theorem forMessage_splits_collection (message : MessageModel) (w : World) :
  distinct_models (collection w) ->
  let r := forMessage message w in
  exists claimed,
    outcome r = Ok claimed
    /\ Permutation (claimed ++ collection (final r)) (collection w)
    /\ (forall re, In re claimed -> ~ In re (collection (final r)))
    /\ distinct_models (collection (final r)).
Proof.
  intros Hnd r. subst r. destruct (forMessage_run message w) as [Hout _].
  rewrite (forMessage_remaining message w Hnd).
  eexists. split; [exact Hout|]. split; [apply filter_partition|]. split.
  - intros re Hin Hin'. apply filter_In in Hin. apply filter_In in Hin'.
    destruct Hin as [_ H1], Hin' as [_ H2]. rewrite H1 in H2. discriminate.
  - now apply distinct_filter.
Qed.

Lemma filter_filter_none {A} (p q : A -> bool) (l : list A) :
  (forall x, In x l -> q x = false -> p x = false) ->
  filter p (filter (fun x => negb (q x)) l) = [].
Proof.
  intros H. induction l as [|x rest IH]; simpl; [reflexivity|].
  destruct (q x) eqn:Q; simpl.
  - apply IH. intros; apply H; auto. now right.
  - rewrite (H x (or_introl eq_refl) Q). apply IH.
    intros; apply H; auto. now right.
Qed.

Lemma sameTimestamp_none_after msg (models : list ReactionModel) q :
  (forall re, In re models -> q re = false -> sameAuthorAndTimestamp msg re = false) ->
  (forall re, In re models -> q re = false -> sameTimestamp msg re = true ->
              isOutgoing msg = true ->
              filter (sameTimestamp msg) models <> [] -> False) ->
  filter (claimTest msg (filter (fun re => negb (q re)) models))
         (filter (fun re => negb (q re)) models) = [].
Proof.
  intros Hsource Hstamp.
  unfold claimTest at 1.
  destruct (isOutgoing msg) eqn:Hout; [|now apply filter_filter_none].
  destruct (filter (sameTimestamp msg) (filter (fun re => negb (q re)) models))
    as [|first others] eqn:Hsel; [now apply filter_filter_none|].
  exfalso.
  assert (Hin : In first (filter (sameTimestamp msg)
                                 (filter (fun re => negb (q re)) models)))
    by (rewrite Hsel; now left).
  apply filter_In in Hin. destruct Hin as [Hin Hts].
  apply filter_In in Hin. destruct Hin as [Hin Hq].
  apply negb_true_iff in Hq.
  apply (Hstamp first Hin Hq Hts eq_refl).
  intros Hnone.
  assert (Hin' : In first (filter (sameTimestamp msg) models))
    by (apply filter_In; auto).
  rewrite Hnone in Hin'. destruct Hin'.
Qed.

(** X3. What [forMessage] has claimed is not claimed again: a second call
    for the same message, right after the first, returns the empty array and
    leaves the collection as the first call left it. *)
Theorem forMessage_claims_once (message : MessageModel) (w : World) :
  distinct_models (collection w) ->
  let first := forMessage message w in
  let second := forMessage message (final first) in
  outcome second = Ok []
  /\ collection (final second) = collection (final first).
Proof.
  intros Hnd first second. subst first second.
  assert (Hheap : heap (final (forMessage message w)) = heap w).
  { destruct (forMessage_run message w) as [_ Hfin]. rewrite Hfin.
    destruct (filter _ (collection w)); reflexivity. }
  assert (Hnone :
    filter (claimTest (heap w message)
                      (collection (final (forMessage message w))))
           (collection (final (forMessage message w))) = []).
  { rewrite (forMessage_remaining message w Hnd).
    apply sameTimestamp_none_after.
    - intros re Hin Hq. unfold claimTest in Hq.
      destruct (isOutgoing (heap w message)); [|exact Hq].
      destruct (filter (sameTimestamp (heap w message)) (collection w)) eqn:E;
        [exact Hq|].
      unfold sameAuthorAndTimestamp. unfold sameTimestamp in Hq.
      rewrite Hq. apply andb_false_r.
    - intros re Hin Hq Hts Hout Hsome. unfold claimTest in Hq.
      rewrite Hout in Hq.
      destruct (filter (sameTimestamp (heap w message)) (collection w));
        [now apply Hsome | congruence]. }
  destruct (forMessage_run message (final (forMessage message w))) as [Hout Hfin].
  rewrite Hheap in Hout, Hfin. rewrite Hnone in Hout, Hfin.
  split; [exact Hout | now rewrite Hfin].
Qed.

(** X4. On the general path [forMessage] resolves the target author of every
    buffered reaction, whatever its timestamp: [lookupOrCreate] is called once
    per reaction, in the order of the collection, with the reason
    'Reactions.forMessage'. *)
Theorem forMessage_resolves_every_author (message : MessageModel) (w : World) :
  isOutgoing (heap w message) = false
  \/ filter (sameTimestamp (heap w message)) (collection w) = [] ->
  filter isLookupOrCreate (events (forMessage message w))
  = map (fun re => EvLookupOrCreate (targetAuthorUuid (attributes re))
                                    "Reactions.forMessage")
        (collection w).
Proof.
  intros Hpath. rewrite (forMessage_bySource_run message w Hpath). cbv zeta.
  assert (Hall : filter isLookupOrCreate (flat_map forMessageLookup (collection w))
                 = map (fun re => EvLookupOrCreate (targetAuthorUuid (attributes re))
                                                   "Reactions.forMessage")
                       (collection w)).
  { generalize (collection w) as models.
    induction models as [|re rest IH]; simpl; [reflexivity|].
    f_equal. exact IH. }
  destruct (filter (sameAuthorAndTimestamp (heap w message)) (collection w));
    unfold events; simpl snd.
  - exact Hall.
  - rewrite filter_app, Hall. simpl. apply app_nil_r.
Qed.

(* ----------------------------------------------------------------- *)
(** *** More about [findMessage] *)

Lemma find_first {A} (p : A -> bool) (l : list A) (x : A) :
  find p l = Some x ->
  exists before after,
    l = before ++ x :: after /\ forall y, In y before -> p y = false.
Proof.
  induction l as [|a rest IH]; simpl; [discriminate|].
  destruct (p a) eqn:Pa.
  - intros H. injection H as <-. exists [], rest. split; [reflexivity|].
    intros y [].
  - intros H. destruct (IH H) as (before & after & -> & Hbefore).
    exists (a :: before), after. split; [reflexivity|].
    intros y [<-|Hy]; auto.
Qed.

(** X5. [findMessage] passes a rejection of the store query on. Otherwise
    it returns the first message of the store's answer whose contact exists
    and has the target conversation id: messages before it do not qualify,
    and it returns nothing exactly when no message of the answer does. It
    changes neither the collection nor the caller's models. *)
Theorem findMessage_first_of_author ts cid (w : World) :
  let r := findMessage ts cid w in
  collection (final r) = collection w
  /\ heap (final r) = heap w
  /\ match getMessagesBySentAt ts (ext w) with
     | (Throw e, x) => outcome r = Throw e /\ ext (final r) = x
     | (Ok messages, x) =>
         ext (final r) = x
         /\ exists found,
             outcome r = Ok found
             /\ match found with
                | Some m =>
                    (exists contact, getContact m = Some contact
                                     /\ conv_id contact = cid)
                    /\ exists before after,
                        messages = before ++ m :: after
                        /\ forall other, In other before -> sentBy cid other = false
                | None =>
                    forall m contact, In m messages ->
                                      getContact m = Some contact ->
                                      conv_id contact <> cid
                end
     end.
Proof.
  intros r. subst r. unfold findMessage, outcome, final.
  destruct (getMessagesBySentAt ts (ext w)) as [[messages|e] x]; simpl.
  - repeat split. eexists. split; [reflexivity|].
    destruct (find (sentBy cid) messages) as [m|] eqn:Hfind.
    + split.
      * apply find_some in Hfind. destruct Hfind as [_ Hsent].
        unfold sentBy in Hsent. destruct (getContact m) as [contact|];
          [|discriminate].
        exists contact. split; [reflexivity | now apply String.eqb_eq].
      * now apply find_first.
    + intros m contact Hin Hcontact Hid.
      pose proof (find_none _ _ Hfind m Hin) as Hsent.
      unfold sentBy in Hsent. rewrite Hcontact in Hsent.
      apply String.eqb_neq in Hsent. contradiction.
  - repeat split.
Qed.

(* ----------------------------------------------------------------- *)
(** *** More about [onReaction] *)

Definition isStoreQuery (e : Event) : bool :=
  match e with EvGetMessagesBySentAt _ _ => true | _ => false end.

Definition isSaveMessage (e : Event) : bool :=
  match e with EvSaveMessage _ _ _ => true | _ => false end.

(** The events of a run up to its first [queueJob]; all of them when no job
    was queued. *)
Fixpoint beforeQueue (evs : list Event) : list Event :=
  match evs with
  | [] => []
  | e :: rest => if isQueueJob e then [] else e :: beforeQueue rest
  end.

Lemma remove_model_subset m x (models : list ReactionModel) :
  In x (remove_model m models) -> In x models.
Proof.
  induction models as [|a rest IH]; simpl; [auto|].
  destruct (same_model a m); simpl; intuition.
Qed.

Lemma remove_model_other m other (models : list ReactionModel) :
  cid other <> cid m -> In other models -> In other (remove_model m models).
Proof.
  intros Hne. induction models as [|a rest IH]; simpl; [auto|].
  destruct (same_model a m) eqn:E; simpl.
  - intros [<-|H]; [|exact H].
    unfold same_model in E. apply Nat.eqb_eq in E. contradiction.
  - intros [<-|H]; auto.
Qed.

(** X6. [onReaction] never adds to the collection and removes at most the
    reaction it was given: whatever the run does, every other reaction that
    was buffered is still buffered afterwards. *)
Theorem onReaction_removes_only_its_reaction R G (w : World) :
  let r := onReaction R G w in
  (forall re, In re (collection (final r)) -> In re (collection w))
  /\ (forall other, cid other <> cid R ->
                    In other (collection w) -> In other (collection (final r))).
Proof.
  intros r. subst r.
  assert (Hcases : collection (final (onReaction R G w)) = collection w
                   \/ collection (final (onReaction R G w))
                      = remove_model R (collection w)).
  { apply (post_run (onReaction R G) w
             (fun _ w' _ => collection w' = collection w
                            \/ collection w' = remove_model R (collection w))).
    wp. all: leaf; auto. }
  destruct Hcases as [-> | ->]; split; auto.
  - intros re. apply remove_model_subset.
  - intros other. apply remove_model_other.
Qed.


(** X8. [onReaction] changes no message outside the conversation queue:
    before the job is queued the run makes no store write and calls no method
    that changes a message or a message list; a run that queues no job makes
    no such call at all. *)
Theorem onReaction_mutates_only_in_the_queue R G (w : World) :
  let r := onReaction R G w in
  calls isMutation (beforeQueue (events r)) = 0%nat
  /\ (calls isQueueJob (events r) = 0%nat -> calls isMutation (events r) = 0%nat).
Proof.
  intros r. subst r.
  apply (post_run (onReaction R G) w
           (fun _ _ ev =>
              calls isMutation (beforeQueue ev) = 0%nat
              /\ (calls isQueueJob ev = 0%nat -> calls isMutation ev = 0%nat))).
  wp.
  all: leaf; split; [reflexivity | intros; first [reflexivity | discriminate]].
Qed.

(** X9. One invocation of [onReaction] starts with exactly one look-up of
    the target author (reason 'Reactions.onReaction'), asks the store for
    messages at most twice, asks for the target conversation at most once,
    queues at most one job, writes to the store at most once and logs at most
    one error. *)
Theorem onReaction_call_budget R G (w : World) :
  let r := onReaction R G w in
  exists rest,
    events r
    = EvLookupOrCreate (targetAuthorUuid (attributes R)) "Reactions.onReaction" :: rest
    /\ calls isLookupOrCreate rest = 0%nat
    /\ (calls isStoreQuery rest <= 2)%nat
    /\ (calls isGetConversationForTargetMessage rest <= 1)%nat
    /\ (calls isQueueJob rest <= 1)%nat
    /\ (calls isSaveMessage rest <= 1)%nat
    /\ (calls isLogError rest <= 1)%nat.
Proof.
  intros r. subst r.
  apply (post_run (onReaction R G) w
           (fun _ _ ev =>
              exists rest,
                ev = EvLookupOrCreate (targetAuthorUuid (attributes R))
                                      "Reactions.onReaction" :: rest
                /\ calls isLookupOrCreate rest = 0%nat
                /\ (calls isStoreQuery rest <= 2)%nat
                /\ (calls isGetConversationForTargetMessage rest <= 1)%nat
                /\ (calls isQueueJob rest <= 1)%nat
                /\ (calls isSaveMessage rest <= 1)%nat
                /\ (calls isLogError rest <= 1)%nat)).
  wp.
  all: leaf; eexists; split; [reflexivity|]; cbn; repeat split; lia.
Qed.

(** X10. A rejected store query at the initial look-up ends the run: the
    rejection is logged with [log.error], [onReaction] resolves, no
    conversation is asked for, no job is queued, and collection and models
    are as before. *)
Theorem onReaction_store_query_rejected R G (w : World) cid e x :
  truthy (option_map conv_id (lookupOrCreate (targetAuthorUuid (attributes R))))
  = Some cid ->
  getMessagesBySentAt (targetTimestamp (attributes R)) (ext w) = (Throw e, x) ->
  let r := onReaction R G w in
  outcome r = Ok tt
  /\ final r = with_ext x w
  /\ events r
     = [EvLookupOrCreate (targetAuthorUuid (attributes R)) "Reactions.onReaction";
        EvConversationGet (conversationId (heap w G));
        EvGetMessagesBySentAt (targetTimestamp (attributes R)) (Throw e);
        EvLogError "Reactions.onReaction error:" (toLogFormat e)].
Proof.
  intros Hcid Hget r. subst r.
  unfold_run. cbn. rewrite Hcid. cbn. rewrite Hget. repeat split.
Qed.

(** X11. For a target that is not a story the apply step leaves the
    generated message alone: it is neither changed, saved nor added to a
    conversation. The step registers the target, calls [handleReaction] on
    it, and removes the reaction from the collection only if that call
    returned; if it rejected, the step rejects with the same error and the
    collection is as before. *)
Theorem applyJob_ordinary_message R G c cid (w : World) messages x m :
  getMessagesBySentAt (targetTimestamp (attributes R)) (ext w) = (Ok messages, x) ->
  find (sentBy cid) messages = Some m ->
  isStory m = false ->
  let j := applyJob R G (Some c) cid w in
  let target := {| reg_id := msg_id m; reg_data := m |} in
  heap (final j) = heap w
  /\ events j
     = [EvLogInfo "Handling reaction for" [LNum (targetTimestamp (attributes R))];
        EvGetMessagesBySentAt (targetTimestamp (attributes R)) (Ok messages);
        EvRegister (msg_id m);
        EvHandleReaction target R]
  /\ match handleReaction target R x with
     | (Ok _, x') =>
         outcome j = Ok tt
         /\ ext (final j) = x'
         /\ collection (final j) = Collection_remove [R] (collection w)
     | (Throw err, x') =>
         outcome j = Throw err
         /\ ext (final j) = x'
         /\ collection (final j) = collection w
     end.
Proof.
  intros Hget Hfind Hstory j target. subst j target.
  unfold applyJob, findMessage, register, bind, call, log_info, emit, ret,
    this_remove. cbn. rewrite Hget. cbn. rewrite Hfind. cbn. rewrite Hstory. cbn.
  destruct (handleReaction {| reg_id := msg_id m; reg_data := m |} R x)
    as [[[]|err] x']; cbn; repeat split.
Qed.

(** X12. When the store rejects the write of a story reaction, both the
    write and [hydrateStoryContext] have been started, and the apply step
    rejects: with the store's error when [hydrateStoryContext] resolves, with
    the error of whichever of the two settles first when it rejects too. The
    [set] is not undone: the generated message is left as
    [hydrateStoryContext] left the story attributes; it is not added to the
    conversation, [handleReaction] is not called and the reaction stays in
    the collection. *)
Theorem applyJob_story_save_rejected R G c cid (w : World) messages x m ourUuid e x1
        hydrated generated x2 :
  getMessagesBySentAt (targetTimestamp (attributes R)) (ext w) = (Ok messages, x) ->
  find (sentBy cid) messages = Some m ->
  isStory m = true ->
  getCheckedUuid x = Ok ourUuid ->
  saveMessage (withStoryReaction R c m (heap w G)) ourUuid true x = (Throw e, x1) ->
  hydrateStoryContext (withStoryReaction R c m (heap w G))
                      {| reg_id := msg_id m; reg_data := m |} x1
  = (hydrated, generated, x2) ->
  let j := applyJob R G (Some c) cid w in
  let placeholder := withStoryReaction R c m (heap w G) in
  outcome j
  = match hydrated with
    | Ok _ => Throw e
    | Throw eh => if secondSettlesFirst x2 then Throw eh else Throw e
    end
  /\ heap (final j) G = generated
  /\ ext (final j) = x2
  /\ collection (final j) = collection w
  /\ events j
     = [EvLogInfo "Handling reaction for" [LNum (targetTimestamp (attributes R))];
        EvGetMessagesBySentAt (targetTimestamp (attributes R)) (Ok messages);
        EvRegister (msg_id m);
        EvSaveMessage placeholder ourUuid true;
        EvHydrateStoryContext G {| reg_id := msg_id m; reg_data := m |}].
Proof.
  intros Hget Hfind Hstory Huuid Hsave Hhydrate j placeholder. subst j placeholder.
  apply (post_run (applyJob R G (Some c) cid) w
           (fun o w' ev =>
              o = match hydrated with
                  | Ok _ => Throw e
                  | Throw eh => if secondSettlesFirst x2 then Throw eh else Throw e
                  end
              /\ heap w' G = generated
              /\ ext w' = x2
              /\ collection w' = collection w
              /\ ev = _)).
  wp.
  all: repeat match goal with
         | Hs : getMessagesBySentAt _ (ext ?w0) = _ |- _ =>
             rewrite Hget in Hs; inversion Hs; subst; clear Hs
         end.
  all: rewrite ?Hfind in *; same_option; try congruence.
  all: leaf; try congruence.
  all: rewrite ?Huuid in *;
    repeat match goal with
           | H : Ok _ = Ok _ |- _ => injection H as H; try subst
           end.
  all: repeat match goal with
         | Hs : saveMessage _ _ _ _ = _ |- _ =>
             rewrite Hsave in Hs; inversion Hs; subst; clear Hs
         | Hh : hydrateStoryContext _ _ _ = _ |- _ =>
             rewrite Hhydrate in Hh; inversion Hh; subst; clear Hh
         end.
  all: repeat split; try reflexivity; try congruence.
  all: match goal with H : secondSettlesFirst _ = _ |- _ => now rewrite H end.
Qed.

End Facts.

(* ----------------------------------------------------------------- *)
(** *** Runs of the concrete client *)

Import Scenario.

Ltac in_list := simpl; repeat (first [left; reflexivity | right]).


Lemma distinct_heart_laugh : distinct_models [heart; laugh].
Proof.
  unfold distinct_models. simpl. repeat constructor; simpl; intuition discriminate.
Defined.


Lemma forMessage_outgoing_match_witness :
  let r := forMessage 2%nat (world [heart; laugh] client0) in
  outcome r = Ok [laugh]
  /\ collection (final r) = [heart]
  /\ calls isLookupOrCreate (events r) = 0%nat.
Proof.
  destruct (forMessage_outgoing_match 2%nat (world [heart; laugh] client0))
    as (Hout & Hcoll & _ & _ & _ & Hcalls).
  - exact distinct_heart_laugh.
  - reflexivity.
  - exists laugh. split; [simpl; auto | reflexivity].
  - split; [exact Hout | split; [exact Hcoll | exact Hcalls]].
Defined.

Lemma forMessage_by_source_witness :
  let r := forMessage 1%nat (world [heart; laugh] client0) in
  outcome r = Ok [heart] /\ collection (final r) = [laugh].
Proof.
  destruct (forMessage_by_source 1%nat (world [heart; laugh] client0))
    as (Hout & Hcoll & _).
  - exact distinct_heart_laugh.
  - left. reflexivity.
  - split; [exact Hout | exact Hcoll].
Defined.

Lemma onReaction_target_conversation_witness :
  queuedOn (events (onReaction thumb 0%nat (world [thumb] client0)))
  = [(bob, "Reactions.onReaction")].
Proof.
  destruct (onReaction_target_conversation thumb 0%nat (world [thumb] client0)
              "conv-alice" [story] client0 story) as [Hstory _].
  - reflexivity.
  - reflexivity.
  - reflexivity.
  - apply (Hstory bob); reflexivity.
Defined.


(** C5. On the client of the scenario, for every reaction, generated
    message, target conversation and store: when the re-fetched target
    message is a story, the apply step sets [storyId] and [storyReaction]
    {emoji, targetAuthorUuid, targetTimestamp} on the generated message and
    starts the write of exactly these attributes with [forceSave]. When the
    store accepts the write, the step returns, the store holds every message
    it held before, the story among them, followed by the generated message
    as one new message, and the generated message is the one new entry of the
    target conversation's message list: a new linked message, not an edit of
    the story. [handleReaction] is still called on the story's model, last. *)
Theorem applyJob_story_links_new_message (R : ReactionModel) (G : MessageModel)
        (c : ConversationModel) (cid : string) (w : @World Client)
        (m : MessageAttributesType) :
  outcome (findMessage (targetTimestamp (attributes R)) cid w) = Ok (Some m) ->
  isStory m = true ->
  let j := applyJob R G (Some c) cid w in
  let placeholder := withStoryReaction R c m (heap w G) in
  storyId placeholder = Some (msg_id m)
  /\ storyReaction placeholder
     = Some {| sr_emoji := emoji (attributes R);
               sr_targetAuthorUuid := targetAuthorUuid (attributes R);
               sr_targetTimestamp := targetTimestamp (attributes R) |}
  /\ msg_id placeholder = msg_id (heap w G)
  /\ heap (final j) G = placeholder
  /\ In (EvSaveMessage placeholder "uuid-me" true) (events j)
  /\ (diskFull (ext w) = false ->
      outcome j = Ok tt
      /\ stored (ext (final j)) = stored (ext w) ++ [placeholder]
      /\ In m (stored (ext (final j)))
      /\ threads (ext (final j)) = threads (ext w) ++ [(conv_id c, msg_id placeholder)]
      /\ events j
         = [EvLogInfo "Handling reaction for" [LNum (targetTimestamp (attributes R))];
            EvGetMessagesBySentAt
              (targetTimestamp (attributes R))
              (Ok (filter (fun m' => sent_at m' =? targetTimestamp (attributes R))
                          (stored (ext w))));
            EvRegister (msg_id m);
            EvSaveMessage placeholder "uuid-me" true;
            EvHydrateStoryContext G {| reg_id := msg_id m; reg_data := m |};
            EvLogInfo "Reactions.onReaction adding reaction to story"
              [LFieldStr "reactionMessageId" (msg_id placeholder);
               LFieldStr "storyId" (msg_id m);
               LFieldNum "targetTimestamp" (targetTimestamp (attributes R));
               LFieldNum "timestamp" (timestamp (attributes R))];
            EvRegister (msg_id placeholder);
            EvAddSingleMessage
              c {| reg_id := msg_id placeholder; reg_data := placeholder |};
            EvHandleReaction {| reg_id := msg_id m; reg_data := m |} R]).
Proof.
  intros Hfind Hstory j placeholder. subst j placeholder.
  unfold findMessage, outcome in Hfind. cbn in Hfind. injection Hfind as Hfind.
  assert (Hstored : In m (stored (ext w))).
  { apply find_some in Hfind. destruct Hfind as [Hin _].
    apply filter_In in Hin. tauto. }
  unfold applyJob, addReactionToStory, Promise_all2, call_on, call, register,
    log_info, emit, findMessage, set_attributes, get_attributes, call_getCheckedUuid,
    this_remove, bind, ret.
  cbn -[withStoryReaction Collection_remove].
  rewrite Hfind. cbn in Hstory.
  cbn -[withStoryReaction Collection_remove]. rewrite Hstory.
  unfold store_saveMessage, model_handleReaction.
  cbn -[withStoryReaction Collection_remove]. rewrite !Nat.eqb_refl.
  destruct (diskFull (ext w)) eqn:Hdisk;
    cbn -[withStoryReaction Collection_remove];
    rewrite ?Nat.eqb_refl, ?Hstory;
    cbn -[withStoryReaction Collection_remove];
    rewrite ?Nat.eqb_refl.
  - repeat split; try discriminate. simpl. auto 10.
  - repeat split; try reflexivity.
    + simpl. auto 10.
    + apply in_or_app. left. exact Hstored.
Qed.

Lemma applyJob_story_links_new_message_witness :
  let j := applyJob thumb 0%nat (Some bob) "conv-alice" (world [thumb] client0) in
  stored (ext (final j)) = [hello; story; sent; withStoryReaction thumb bob story carrier]
  /\ threads (ext (final j)) = [("conv-bob", "m-carrier")].
Proof.
  destruct (applyJob_story_links_new_message
              thumb 0%nat bob "conv-alice" (world [thumb] client0) story)
    as (_ & _ & _ & _ & _ & Hstored).
  - reflexivity.
  - reflexivity.
  - destruct (Hstored eq_refl) as (_ & Hs & _ & Ht & _).
    split; [exact Hs | exact Ht].
Defined.

Lemma onReaction_unresolvable_author_witness :
  onReaction orphan 0%nat (world [orphan] client0)
  = (Ok tt, world [orphan] client0,
     [EvLookupOrCreate "" "Reactions.onReaction";
      EvLogError "Reactions.onReaction error:"
        "onReaction: No conversationId returned from lookupOrCreate!"]).
Proof.
  exact (onReaction_unresolvable_author orphan 0%nat (world [orphan] client0)
           eq_refl).
Defined.

Lemma onReaction_no_message_witness :
  In heart (collection (final (onReaction heart 0%nat (world [heart] emptyClient)))).
Proof.
  destruct (onReaction_no_message heart 0%nat (world [heart] emptyClient)
              "conv-alice" [] emptyClient) as (_ & _ & _ & _ & _ & Hin).
  - reflexivity.
  - reflexivity.
  - reflexivity.
  - apply Hin. simpl. auto.
Defined.

(** A failing apply step does not discard the reaction: with the target
    deleted before the job runs, the job ends without a log of failure and
    the reaction is still in the collection; with a store that rejects the
    write, the failure is logged and the reaction is still there. *)
Lemma failed_apply_keeps_reaction :
  (let r := onReaction heart 0%nat (world [heart] vanishing) in
   lookupResults "conv-alice" (events r) = [Some hello; None]
   /\ calls isLogError (events r) = 0%nat
   /\ In heart (collection (final r)))
  /\ (let r := onReaction thumb 0%nat (world [thumb] fullDisk) in
      In (EvLogError "Reactions.onReaction error:" "saveMessage: disk full") (events r)
      /\ In thumb (collection (final r))).
Proof.
  cbv zeta. split.
  - split; [reflexivity|]. split; [reflexivity|]. vm_compute. in_list.
  - split; vm_compute; in_list.
Qed.

Lemma onReaction_failure_contained_witness :
  (let r := onReaction thumb 0%nat (world [thumb] fullDisk) in
   let j := applyJob thumb 0%nat (Some bob) "conv-alice" (world [thumb] fullDisk) in
   events r
   = eventsBeforeJob thumb 0%nat (world [thumb] fullDisk) [story] [] bob
     ++ events j
     ++ [EvLogError "Reactions.onReaction error:" "saveMessage: disk full"]
   /\ collection (final r) = [thumb])
  /\ collection (final (onReaction heart 0%nat (world [heart] vanishing))) = [heart].
Proof.
  split.
  - destruct (onReaction_failure_contained thumb 0%nat (world [thumb] fullDisk))
      as (_ & _ & _ & _ & _ & _ & Hlogged).
    destruct (Hlogged "conv-alice" [story] fullDisk story bob fullDisk [] fullDisk
                      "saveMessage: disk full") as (Hevents & _ & Hcoll).
    + reflexivity.
    + reflexivity.
    + reflexivity.
    + left. repeat split; reflexivity.
    + reflexivity.
    + vm_compute. reflexivity.
    + split; [exact Hevents | exact Hcoll].
  - destruct (onReaction_failure_contained heart 0%nat (world [heart] vanishing))
      as (_ & _ & _ & _ & _ & Hmissing & _).
    destruct (Hmissing "conv-alice" hello) as (_ & _ & Hcoll & _).
    + reflexivity.
    + vm_compute. reflexivity.
    + exact Hcoll.
Defined.

(** *** Further runs *)

(** The concrete client with a store that rejects every query. *)
Definition closedStore : Collaborators Client := {|
  lookupOrCreate := directory_lookupOrCreate;
  ConversationController_get := directory_get;
  getConversationForTargetMessage := directory_getConversationForTargetMessage;
  getContactId := fun m => option_map conv_id (message_contact m);
  getContact := message_contact;
  isDirectConversation := fun a => String.eqb (conv_type a) "private";
  isMe := fun a => optstr_eqb (conv_uuid a) (Some "uuid-me");
  isOutgoing := fun m => String.eqb (msg_type m) "outgoing";
  isStory := fun m => String.eqb (msg_type m) "story";
  getMessageIdForLogging := msg_id;
  toLogFormat := fun e => e;
  getMessagesBySentAt := fun _ c => (Throw "database is closed", c);
  saveMessage := store_saveMessage;
  getCheckedUuid := fun _ => Ok "uuid-me";
  hydrateStoryContext := model_hydrateStoryContext;
  secondSettlesFirst := fun _ => false;
  handleReaction := model_handleReaction;
  addSingleMessage := model_addSingleMessage;
  queueJob_turn := queue_turn
|}.

Lemma forMessage_returns_buffered_matches_witness :
  In heart [heart; laugh] /\ targetTimestamp (attributes heart) = 1000.
Proof.
  apply (forMessage_returns_buffered_matches 1%nat (world [heart; laugh] client0)
           [heart]).
  - reflexivity.
  - simpl. auto.
Defined.

Lemma forMessage_splits_collection_witness :
  exists claimed,
    outcome (forMessage 2%nat (world [heart; laugh] client0)) = Ok claimed
    /\ Permutation
         (claimed ++ collection (final (forMessage 2%nat (world [heart; laugh] client0))))
         [heart; laugh].
Proof.
  destruct (forMessage_splits_collection 2%nat (world [heart; laugh] client0)
              distinct_heart_laugh) as (claimed & Hout & Hperm & _).
  exists claimed. split; [exact Hout | exact Hperm].
Defined.

Lemma forMessage_claims_once_witness :
  outcome (forMessage 1%nat
             (final (forMessage 1%nat (world [heart; laugh] client0)))) = Ok [].
Proof.
  destruct (forMessage_claims_once 1%nat (world [heart; laugh] client0)
              distinct_heart_laugh) as [Hempty _].
  exact Hempty.
Defined.

Lemma forMessage_resolves_every_author_witness :
  filter isLookupOrCreate (events (forMessage 1%nat (world [heart; laugh] client0)))
  = [EvLookupOrCreate "uuid-alice" "Reactions.forMessage";
     EvLookupOrCreate "uuid-me" "Reactions.forMessage"].
Proof.
  exact (forMessage_resolves_every_author 1%nat (world [heart; laugh] client0)
           (or_introl eq_refl)).
Defined.

Lemma findMessage_first_of_author_witness :
  collection (final (findMessage 1000 "conv-alice" (world [heart] client0))) = [heart].
Proof.
  destruct (findMessage_first_of_author 1000 "conv-alice" (world [heart] client0))
    as (Hcoll & _).
  exact Hcoll.
Defined.

Lemma onReaction_removes_only_its_reaction_witness :
  In thumb (collection (final (onReaction heart 0%nat (world [heart; thumb] client0)))).
Proof.
  destruct (onReaction_removes_only_its_reaction heart 0%nat
              (world [heart; thumb] client0)) as [_ Hkept].
  apply (Hkept thumb).
  - simpl. discriminate.
  - simpl. auto.
Defined.


Lemma onReaction_mutates_only_in_the_queue_witness :
  calls isMutation (events (onReaction heart 0%nat (world [heart] emptyClient))) = 0%nat.
Proof.
  destruct (onReaction_mutates_only_in_the_queue heart 0%nat (world [heart] emptyClient))
    as [_ Hnone].
  apply Hnone. reflexivity.
Defined.

Lemma onReaction_store_query_rejected_witness :
  events (@onReaction Client closedStore heart 0%nat (world [heart] client0))
  = [EvLookupOrCreate "uuid-alice" "Reactions.onReaction";
     EvConversationGet "conv-bob";
     EvGetMessagesBySentAt 1000 (Throw "database is closed");
     EvLogError "Reactions.onReaction error:" "database is closed"].
Proof.
  destruct (@onReaction_store_query_rejected Client closedStore heart 0%nat
              (world [heart] client0) "conv-alice" "database is closed" client0
              eq_refl eq_refl) as (_ & _ & Hevents).
  exact Hevents.
Defined.

Lemma applyJob_ordinary_message_witness :
  collection (final (applyJob heart 0%nat (Some family) "conv-alice"
                              (world [heart; thumb] client0))) = [thumb].
Proof.
  pose proof (applyJob_ordinary_message heart 0%nat family "conv-alice"
                (world [heart; thumb] client0) [hello] client0 hello
                eq_refl eq_refl eq_refl) as (_ & _ & Hdone).
  destruct Hdone as (_ & _ & Hcoll). exact Hcoll.
Defined.

Lemma applyJob_story_save_rejected_witness :
  outcome (applyJob thumb 0%nat (Some bob) "conv-alice" (world [thumb] fullDisk))
  = Throw "saveMessage: disk full"
  /\ collection (final (applyJob thumb 0%nat (Some bob) "conv-alice"
                                 (world [thumb] fullDisk))) = [thumb].
Proof.
  destruct (applyJob_story_save_rejected thumb 0%nat bob "conv-alice"
              (world [thumb] fullDisk) [story] fullDisk story "uuid-me"
              "saveMessage: disk full" fullDisk (Ok tt)
              (withStoryReaction thumb bob story carrier) fullDisk)
    as (Hout & _ & _ & Hcoll & _).
  - vm_compute. reflexivity.
  - vm_compute. reflexivity.
  - vm_compute. reflexivity.
  - vm_compute. reflexivity.
  - vm_compute. reflexivity.
  - vm_compute. reflexivity.
  - split; [exact Hout | exact Hcoll].
Defined.

End Reactions.
